(** * Saturating Q15 AXPY: scalar reference, RVV kernel and equivalence checker

    A shallow embedding of [src/q15_axpy_challenge.c].  Machine integers are
    mathematical integers with the wrap-around of every C conversion and
    operation written out; buffers are lists indexed from a base offset; a
    kernel threads the output buffer through an error monad whose failures
    are an access outside a buffer and an exhausted iteration budget. *)

From Stdlib Require Import ZArith Lia.
From stdpp Require Import base numbers option list.

Local Open Scope Z_scope.

(** ** Machine integers *)

Definition INT16_MIN : Z := -32768.
Definition INT16_MAX : Z := 32767.
Definition INT32_MIN : Z := -2147483648.
Definition INT32_MAX : Z := 2147483647.

Definition is_int16 (v : Z) : Prop := INT16_MIN <= v <= INT16_MAX.
Definition is_int32 (v : Z) : Prop := INT32_MIN <= v <= INT32_MAX.

(** Two's-complement reduction to [w] bits, the value of a conversion to a
    signed type of that width. *)
Definition wrap_signed (w v : Z) : Z :=
  (v + 2 ^ (w - 1)) mod 2 ^ w - 2 ^ (w - 1).

(** Reduction to [w] bits, the value of a conversion to an unsigned type. *)
Definition wrap_unsigned (w v : Z) : Z := v mod 2 ^ w.

(** [(int16_t)v] and [(int32_t)v]. *)
Definition to_int16 (v : Z) : Z := wrap_signed 16 v.
Definition to_int32 (v : Z) : Z := wrap_signed 32 v.

(** 32-bit [int] arithmetic. *)
Definition add32 (x y : Z) : Z := to_int32 (x + y).
Definition sub32 (x y : Z) : Z := to_int32 (x - y).
Definition mul32 (x y : Z) : Z := to_int32 (x * y).
Definition neg32 (x : Z) : Z := to_int32 (- x).

(** ** Buffers and the error monad *)

Inductive result (A : Type) : Type :=
| Ok (x : A)
| OutOfBounds
| OutOfFuel.

Arguments Ok {A} x.
Arguments OutOfBounds {A}.
Arguments OutOfFuel {A}.

#[global] Instance result_ret : MRet result := fun _ x => Ok x.
#[global] Instance result_bind : MBind result := fun _ _ f c =>
  match c with
  | Ok x => f x
  | OutOfBounds => OutOfBounds
  | OutOfFuel => OutOfFuel
  end.

(** [m[i]] read through a pointer to the start of [m]. *)
Definition load (m : list Z) (i : Z) : result Z :=
  if 0 <=? i then
    match m !! Z.to_nat i with
    | Some v => Ok v
    | None => OutOfBounds
    end
  else OutOfBounds.

(** [m[i] = v]. *)
Definition store (m : list Z) (i v : Z) : result (list Z) :=
  if (0 <=? i) && (i <? Z.of_nat (length m)) then Ok (<[Z.to_nat i := v]> m)
  else OutOfBounds.

(** ** The saturation primitive *)

Definition sat_q15 (v : Z) : Z :=
  if v >? 32767 then 32767
  else if v <? -32768 then -32768
  else to_int16 v.

(** ** The scalar reference kernel *)

(** The value of [result] in the loop body: the 32-bit accumulator. *)
Definition axpy_acc (ai alpha bi : Z) : Z :=
  add32 (to_int32 ai) (mul32 (to_int32 alpha) (to_int32 bi)).

(** The [for] loop from the state [(i, y)]; [fuel] bounds the number of
    iterations still allowed. *)
Fixpoint q15_axpy_ref_loop (fuel : nat) (a b y : list Z) (n alpha i : Z)
  : result (list Z) :=
  if i <? n then
    match fuel with
    | O => OutOfFuel
    | S fuel' =>
        ai ← load a i;
        bi ← load b i;
        let result := axpy_acc ai alpha bi in
        y' ← store y i (sat_q15 result);
        q15_axpy_ref_loop fuel' a b y' n alpha (add32 i 1)
    end
  else Ok y.

Definition q15_axpy_ref (a b y : list Z) (n alpha : Z) : result (list Z) :=
  q15_axpy_ref_loop (Z.to_nat n) a b y n alpha 0.

(** The kernel on a host without the vector extension. *)
Definition q15_axpy_rvv_fallback (a b y : list Z) (n alpha : Z)
  : result (list Z) :=
  q15_axpy_ref a b y n alpha.

(** ** The vector kernel *)

(** Modelled from the spec: the intrinsics of [riscv_vector.h], which the
    kernel calls and the repository does not define (load two slices, widen
    and multiply by the scalar, widen-add, saturate-narrow in one step,
    store).  A vector value is the list of its active elements; each
    operation follows the RVV 1.0 description of its instruction, at
    SEW = 16 for the narrow operands and 2*SEW = 32 for the wide ones.  Two
    platform facts stay parameters of the kernel: the width [XLEN] of
    [size_t] and the element count [vsetvl] grants for a requested one. *)

(** Fixed-point rounding modes of the [vxrm] register. *)
Inductive vxrm : Type := VXRM_RNU | VXRM_RNE | VXRM_RDN | VXRM_ROD.

(** Bit [i] of [v] as a number; bits below position zero read as zero. *)
Definition bit (v i : Z) : Z := if Z.testbit v i then 1 else 0.

(** Whether the bit field [v[d-1:0]] holds a one. *)
Definition low_bits_set (v d : Z) : bool := negb (Z.land v (Z.ones d) =? 0).

(** The rounding increment [r] of [roundoff_signed]. *)
Definition rounding_increment (m : vxrm) (v d : Z) : Z :=
  match m with
  | VXRM_RNU => bit v (d - 1)
  | VXRM_RNE =>
      if Z.testbit v (d - 1) && (low_bits_set v (d - 1) || Z.testbit v d)
      then 1 else 0
  | VXRM_RDN => 0
  | VXRM_ROD => if negb (Z.testbit v d) && low_bits_set v d then 1 else 0
  end.

Definition roundoff_signed (m : vxrm) (v d : Z) : Z :=
  Z.shiftr v d + rounding_increment m v d.

(** Signed saturation to [sew] bits. *)
Definition clip_signed (sew v : Z) : Z :=
  Z.max (- 2 ^ (sew - 1)) (Z.min (2 ^ (sew - 1) - 1) v).

(** Unit-stride load of [vl] 16-bit elements from [m + p]. *)
Definition vle16_v_i16m1 (m : list Z) (p vl : Z) : result (list Z) :=
  if (0 <=? p) && (0 <=? vl) && (p + vl <=? Z.of_nat (length m))
  then Ok (take (Z.to_nat vl) (drop (Z.to_nat p) m))
  else OutOfBounds.

(** Unit-stride store of the first [vl] elements of [v] to [m + p]. *)
Definition vse16_v_i16m1 (m : list Z) (p : Z) (v : list Z) (vl : Z)
  : result (list Z) :=
  if (0 <=? p) && (0 <=? vl) && (p + vl <=? Z.of_nat (length m))
  then Ok (list_inserts (Z.to_nat p) (take (Z.to_nat vl) v) m)
  else OutOfBounds.

(** [vwmul.vx]: both 16-bit operands sign-extended, product kept on 32 bits. *)
Definition vwmul_vx_i32m2 (vs2 : list Z) (rs1 vl : Z) : list Z :=
  (fun x => wrap_signed 32 (to_int16 x * to_int16 rs1)) <$> take (Z.to_nat vl) vs2.

(** [vwadd.wv]: a 32-bit operand plus a sign-extended 16-bit one, modulo 2^32. *)
Definition vwadd_wv_i32m2 (vs2 vs1 : list Z) (vl : Z) : list Z :=
  zip_with (fun w x => wrap_signed 32 (w + to_int16 x))
    (take (Z.to_nat vl) vs2) (take (Z.to_nat vl) vs1).

(** [vnclip.wx]: shift right by the low five bits of [shift] with rounding,
    then saturate to 16 bits. *)
Definition vnclip_wx_i16m1 (vs2 : list Z) (shift : Z) (m : vxrm) (vl : Z)
  : list Z :=
  (fun w => clip_signed 16 (roundoff_signed m w (Z.land shift 31)))
    <$> take (Z.to_nat vl) vs2.

Section Kernel.

Variable XLEN : Z.
Variable vsetvl_e16m1 : Z -> Z.

(** The [while] loop from the state [(a, b, y, remaining)]: [pa], [pb] and
    [py] are the element offsets the three pointers have advanced by. *)
Fixpoint q15_axpy_rvv_loop (fuel : nat) (a b y : list Z) (pa pb py : Z)
    (alpha remaining : Z) : result (list Z) :=
  if remaining >? 0 then
    match fuel with
    | O => OutOfFuel
    | S fuel' =>
        let vl := vsetvl_e16m1 remaining in
        va ← vle16_v_i16m1 a pa vl;
        vb ← vle16_v_i16m1 b pb vl;
        let prod := vwmul_vx_i32m2 vb alpha vl in
        let sum := vwadd_wv_i32m2 prod va vl in
        let vy := vnclip_wx_i16m1 sum 0 VXRM_RNU vl in
        y' ← vse16_v_i16m1 y py vy vl;
        q15_axpy_rvv_loop fuel' a b y' (pa + vl) (pb + vl) (py + vl) alpha
          (wrap_unsigned XLEN (remaining - vl))
    end
  else Ok y.

Definition q15_axpy_rvv (a b y : list Z) (n alpha : Z) : result (list Z) :=
  let remaining := wrap_unsigned XLEN n in
  q15_axpy_rvv_loop (Z.to_nat remaining) a b y 0 0 0 alpha remaining.

End Kernel.

(** Modelled from the spec: the chunk size [__riscv_vsetvl_e16m1] grants on
    a platform whose widest unit holds [vlmax] 16-bit elements, the minimum
    of the remaining count and that width. *)
Definition vsetvl_min (vlmax avl : Z) : Z := Z.min avl vlmax.

(** ** The equivalence checker *)

(** The [for] loop from the state [(i, match, *max_diff)]. *)
Fixpoint arrays_match_loop (fuel : nat) (ref test : list Z)
    (n i match_ max_diff : Z) : result (Z * Z) :=
  if i <? n then
    match fuel with
    | O => OutOfFuel
    | S fuel' =>
        r ← load ref i;
        t ← load test i;
        let diff := sub32 (to_int32 r) (to_int32 t) in
        let diff := if diff <? 0 then neg32 diff else diff in
        let max_diff := if diff >? max_diff then diff else max_diff in
        let match_ := if negb (diff =? 0) then 0 else match_ in
        arrays_match_loop fuel' ref test n (add32 i 1) match_ max_diff
    end
  else Ok (match_, max_diff).

(** Returns the pair [(match, *max_diff)]. *)
Definition arrays_match (ref test : list Z) (n : Z) : result (Z * Z) :=
  arrays_match_loop (Z.to_nat n) ref test n 0 1 0.

(** ** The edge-case battery *)

Definition kernel : Type :=
  list Z -> list Z -> list Z -> Z -> Z -> result (list Z).

(** The locals [(y_ref, y_rvv, pass)] of [run_edge_tests]. *)
Definition edge_state : Type := (Z * Z * Z)%type.

(** One block of the battery: set [a] and [b], run both kernels on the
    one-element buffers [&a], [&b], [&y_ref] and [&y_rvv], and clear [pass]
    when either output differs from [expected]. *)
Definition edge_case (kref krvv : kernel) (a b alpha expected : Z)
    (s : edge_state) : result edge_state :=
  let '(y_ref, y_rvv, pass) := s in
  out_ref ← kref [a] [b] [y_ref] 1 alpha;
  out_rvv ← krvv [a] [b] [y_rvv] 1 alpha;
  y_ref' ← load out_ref 0;
  y_rvv' ← load out_rvv 0;
  let pass' :=
    if negb (y_ref' =? expected) || negb (y_rvv' =? expected) then 0 else pass in
  Ok (y_ref', y_rvv', pass').

(** The battery over two kernels; [y_ref0] and [y_rvv0] are the indeterminate
    first values of the two output locals. *)
Definition run_edge_tests_with (kref krvv : kernel) (y_ref0 y_rvv0 : Z)
  : result Z :=
  s ← edge_case kref krvv 32767 1 1 32767 (y_ref0, y_rvv0, 1);
  s ← edge_case kref krvv (-32768) 1 (-1) (-32768) s;
  s ← edge_case kref krvv 0 32767 32767 32767 s;
  s ← edge_case kref krvv 100 200 5 1100 s;
  Ok (s.2).

(** The battery as built for a RISC-V target with the vector extension. *)
Definition run_edge_tests (XLEN : Z) (vsetvl : Z -> Z) (y_ref0 y_rvv0 : Z)
  : result Z :=
  run_edge_tests_with q15_axpy_ref (q15_axpy_rvv XLEN vsetvl) y_ref0 y_rvv0.

(** The battery as built for any other host. *)
Definition run_edge_tests_fallback (y_ref0 y_rvv0 : Z) : result Z :=
  run_edge_tests_with q15_axpy_ref q15_axpy_rvv_fallback y_ref0 y_rvv0.

(** ** Reference semantics for the statements below *)

(** Saturation as the design words it: the nearest representable 16-bit
    value. *)
Definition saturate (v : Z) : Z := Z.max INT16_MIN (Z.min INT16_MAX v).

(** One output element, in exact integer arithmetic. *)
Definition axpy_elem (alpha ai bi : Z) : Z := saturate (ai + alpha * bi).

(** The output buffer after a call on the first [n] elements: computed
    elements first, the rest of [y] as it was. *)
Definition axpy_out (a b y : list Z) (n alpha : Z) : list Z :=
  take (Z.to_nat n) (zip_with (axpy_elem alpha) a b) ++ drop (Z.to_nat n) y.

(** The output buffer once every index from [i] up to [n] has been
    processed, given the buffer [y] reached at index [i]. *)
Definition axpy_from (a b y : list Z) (n : nat) (alpha : Z) (i : nat) : list Z :=
  take i y ++ drop i (take n (zip_with (axpy_elem alpha) a b)) ++ drop n y.

(** The per-index differences over the first [n] elements, in exact integer
    arithmetic. *)
Definition abs_diffs (ref test : list Z) (n : nat) : list Z :=
  take n (zip_with (fun r t => Z.abs (r - t)) ref test).

Definition all_zero (ds : list Z) : bool := forallb (Z.eqb 0) ds.

Definition max_of (ds : list Z) : Z := foldr Z.max 0 ds.

(** Kernel [k], run on the one-element buffers of a battery block whose
    output local holds [y0], leaves [expected] in that local. *)
Definition case_passes (k : kernel) (a b alpha expected y0 : Z) : Prop :=
  exists out, k [a] [b] [y0] 1 alpha = Ok out /\ load out 0 = Ok expected.

(** All four blocks pass for both kernels; from the second block on, an
    output local starts with the value the block before left in it. *)
Definition battery_cases_pass (kref krvv : kernel) (y_ref0 y_rvv0 : Z) : Prop :=
  (case_passes kref 32767 1 1 32767 y_ref0 /\
   case_passes krvv 32767 1 1 32767 y_rvv0) /\
  (case_passes kref (-32768) 1 (-1) (-32768) 32767 /\
   case_passes krvv (-32768) 1 (-1) (-32768) 32767) /\
  (case_passes kref 0 32767 32767 32767 (-32768) /\
   case_passes krvv 0 32767 32767 32767 (-32768)) /\
  (case_passes kref 100 200 5 1100 32767 /\
   case_passes krvv 100 200 5 1100 32767).

(** ** The benchmark driver *)

(** [const int N] of [main]. *)
Definition N : Z := 4096.

(** [(int16_t)(r % 65536 - 32768)] for a value [r] returned by [rand()];
    [%] on [int] truncates towards zero. *)
Definition rand_sample (r : Z) : Z := to_int16 (sub32 (Z.rem r 65536) 32768).

(** The fill loop from the state [(i, a, b)].  The generator seeded by
    [srand(1234)] is the platform's: [rand k] is the value its [k]-th call
    returns and [calls] counts the calls made so far. *)
Fixpoint fill_loop (fuel : nat) (rand : nat -> Z) (calls : nat)
    (a b : list Z) (n i : Z) : result (list Z * list Z * nat) :=
  if i <? n then
    match fuel with
    | O => OutOfFuel
    | S fuel' =>
        a' ← store a i (rand_sample (rand calls));
        b' ← store b i (rand_sample (rand (S calls)));
        fill_loop fuel' rand (S (S calls)) a' b' n (add32 i 1)
    end
  else Ok (a, b, calls).

(** [main] over a vector kernel [krvv].  The four [aligned_alloc] results are
    [None] for a null pointer and the block's indeterminate contents
    otherwise; [y_ref0] and [y_rvv0] are the indeterminate locals of the
    battery.  Timing and printing are left out.  The result is the exit
    status with the pair [(match, max_diff)] of the "Verify" line, if that
    line is reached. *)
Definition main_with (krvv : kernel) (rand : nat -> Z) (y_ref0 y_rvv0 : Z)
    (alloc_a alloc_b alloc_y_ref alloc_y_rvv : option (list Z))
  : result (Z * option (Z * Z)) :=
  let ok := 1 in
  pass ← run_edge_tests_with q15_axpy_ref krvv y_ref0 y_rvv0;
  let ok := if pass =? 0 then 0 else ok in
  match alloc_a, alloc_b, alloc_y_ref, alloc_y_rvv with
  | Some a, Some b, Some y_ref, Some y_rvv =>
      filled ← fill_loop (Z.to_nat N) rand 0 a b N 0;
      let a := filled.1.1 in
      let b := filled.1.2 in
      let alpha := 3 in
      y_ref ← q15_axpy_ref a b y_ref N alpha;
      y_rvv ← krvv a b y_rvv N alpha;
      verdict ← arrays_match y_ref y_rvv N;
      let match_ := verdict.1 in
      let max_diff := verdict.2 in
      let ok := if match_ =? 0 then 0 else ok in
      Ok (if ok =? 0 then 1 else 0, Some (match_, max_diff))
  | _, _, _, _ => Ok (1, None)
  end.

(** [main] as built for a RISC-V target with the vector extension, and as
    built for any other host. *)
Definition main (XLEN : Z) (vsetvl : Z -> Z) :=
  main_with (q15_axpy_rvv XLEN vsetvl).

Definition main_fallback := main_with q15_axpy_rvv_fallback.

(** The values the fill loop stores in one buffer: [k] samples, from every
    second call of the generator starting with call [c]. *)
Fixpoint samples (rand : nat -> Z) (c k : nat) : list Z :=
  match k with
  | O => []
  | S k' => rand_sample (rand c) :: samples rand (S (S c)) k'
  end.

(** ** Proof automation *)

(** Closes [is_int16 v] for a literal [v]. *)
Ltac int16_value := unfold is_int16, INT16_MIN, INT16_MAX; lia.

(** Closes [Forall is_int16 l] for a literal list [l]. *)
Ltac int16_list :=
  repeat (apply Forall_cons; split; [int16_value|]); apply Forall_nil_2.

(** ** Concrete runs *)

Example ref_overflow : q15_axpy_ref [32767] [1] [0] 1 1 = Ok [32767].
Proof. reflexivity. Qed.

Example ref_short_buffer : q15_axpy_ref [1; 2] [3] [0; 0] 2 1 = OutOfBounds.
Proof. reflexivity. Qed.

Example rvv_partial_chunk :
  q15_axpy_rvv 64 (vsetvl_min 2) [1; 2; 30000; -4; 5] [1; 1; 1; 1; -32768]
    [0; 0; 0; 0; 0; 7] 5 32767
  = Ok [32767; 32767; 32767; 32763; -32768; 7].
Proof. vm_compute. reflexivity. Qed.

Example rvv_matches_ref_on_run :
  q15_axpy_rvv 64 (vsetvl_min 2) [1; 2; 30000; -4; 5] [1; 1; 1; 1; -32768]
    [0; 0; 0; 0; 0; 7] 5 32767
  = q15_axpy_ref [1; 2; 30000; -4; 5] [1; 1; 1; 1; -32768]
    [0; 0; 0; 0; 0; 7] 5 32767.
Proof. vm_compute. reflexivity. Qed.

Example arrays_match_differs :
  arrays_match [1; -32768; 3] [1; 32767; 5] 3 = Ok (0, 65535).
Proof. vm_compute. reflexivity. Qed.

Example run_edge_tests_passes : run_edge_tests 64 (vsetvl_min 8) 0 0 = Ok 1.
Proof. vm_compute. reflexivity. Qed.

(** ** Machine-integer facts *)

Lemma wrap_signed_small (w v : Z) :
  0 < w -> - 2 ^ (w - 1) <= v < 2 ^ (w - 1) -> wrap_signed w v = v.
Proof.
  intros Hw Hv. unfold wrap_signed.
  assert (H2 : 2 ^ w = 2 * 2 ^ (w - 1)).
  { replace w with (Z.succ (w - 1)) at 1 by lia. apply Z.pow_succ_r. lia. }
  rewrite Z.mod_small; lia.
Qed.

Lemma to_int32_id (v : Z) : is_int32 v -> to_int32 v = v.
Proof.
  unfold is_int32, INT32_MIN, INT32_MAX, to_int32. intros H.
  apply wrap_signed_small; [lia|]. change (2 ^ (32 - 1)) with 2147483648. lia.
Qed.

Lemma to_int16_id (v : Z) : is_int16 v -> to_int16 v = v.
Proof.
  unfold is_int16, INT16_MIN, INT16_MAX, to_int16. intros H.
  apply wrap_signed_small; [lia|]. change (2 ^ (16 - 1)) with 32768. lia.
Qed.

Lemma is_int16_int32 (v : Z) : is_int16 v -> is_int32 v.
Proof. unfold is_int16, is_int32, INT16_MIN, INT16_MAX, INT32_MIN, INT32_MAX. lia. Qed.

Lemma int16_product_range (x y : Z) :
  is_int16 x -> is_int16 y -> - 1073709056 <= x * y <= 1073741824.
Proof.
  unfold is_int16, INT16_MIN, INT16_MAX. intros Hx Hy. nia.
Qed.

Lemma int16_accumulator_range (ai alpha bi : Z) :
  is_int16 ai -> is_int16 alpha -> is_int16 bi ->
  - 1073741824 <= ai + alpha * bi <= 1073774591.
Proof.
  intros Ha Hal Hb. pose proof (int16_product_range alpha bi Hal Hb).
  unfold is_int16, INT16_MIN, INT16_MAX in Ha. lia.
Qed.

Lemma axpy_acc_exact (ai alpha bi : Z) :
  is_int16 ai -> is_int16 alpha -> is_int16 bi ->
  axpy_acc ai alpha bi = ai + alpha * bi.
Proof.
  intros Ha Hal Hb. unfold axpy_acc, add32, mul32.
  pose proof (int16_product_range alpha bi Hal Hb) as Hp.
  pose proof (int16_accumulator_range ai alpha bi Ha Hal Hb) as Hs.
  rewrite (to_int32_id ai), (to_int32_id alpha), (to_int32_id bi)
    by auto using is_int16_int32.
  rewrite (to_int32_id (alpha * bi))
    by (unfold is_int32, INT32_MIN, INT32_MAX; lia).
  apply to_int32_id. unfold is_int32, INT32_MIN, INT32_MAX. lia.
Qed.

(** [i++] below a bound that is an [int] does not wrap. *)
Lemma next_index (n : Z) (i : nat) :
  is_int32 n -> Z.of_nat i < n -> add32 (Z.of_nat i) 1 = Z.of_nat (S i).
Proof.
  intros Hn Hi. unfold add32. rewrite to_int32_id; [lia|].
  unfold is_int32, INT32_MIN, INT32_MAX in *. lia.
Qed.

Lemma sat_q15_saturate (v : Z) : sat_q15 v = saturate v.
Proof.
  unfold sat_q15, saturate, INT16_MIN, INT16_MAX.
  destruct (Z.gtb_spec v 32767); [lia|].
  destruct (Z.ltb_spec v (-32768)); [lia|].
  rewrite to_int16_id by (unfold is_int16, INT16_MIN, INT16_MAX; lia). lia.
Qed.

Lemma saturate_is_int16 (v : Z) : is_int16 (saturate v).
Proof. unfold saturate, is_int16, INT16_MIN, INT16_MAX. lia. Qed.

(** ** Buffer accesses *)

Lemma load_lookup (m : list Z) (i : nat) (v : Z) :
  m !! i = Some v -> load m (Z.of_nat i) = Ok v.
Proof.
  intros H. unfold load.
  destruct (Z.leb_spec 0 (Z.of_nat i)); [|lia].
  by rewrite Nat2Z.id, H.
Qed.

Lemma store_insert (m : list Z) (i : nat) (v : Z) :
  (i < length m)%nat -> store m (Z.of_nat i) v = Ok (<[i := v]> m).
Proof.
  intros H. unfold store.
  destruct (Z.leb_spec 0 (Z.of_nat i)); [|lia].
  destruct (Z.ltb_spec (Z.of_nat i) (Z.of_nat (length m))); [|lia].
  by rewrite Nat2Z.id.
Qed.

(** ** The scalar loop in closed form *)

Lemma axpy_from_done (a b y : list Z) (n : nat) (alpha : Z) :
  axpy_from a b y n alpha n = y.
Proof.
  unfold axpy_from. rewrite (drop_ge (take n _)) by (rewrite length_take; lia).
  simpl. apply take_drop.
Qed.

Lemma axpy_from_start (a b y : list Z) (n alpha : Z) :
  axpy_from a b y (Z.to_nat n) alpha 0 = axpy_out a b y n alpha.
Proof. reflexivity. Qed.

Lemma axpy_prefix_lookup (a b : list Z) (n : nat) (alpha : Z) (i : nat) (ai bi : Z) :
  (i < n)%nat -> a !! i = Some ai -> b !! i = Some bi ->
  take n (zip_with (axpy_elem alpha) a b) !! i = Some (axpy_elem alpha ai bi).
Proof.
  intros Hi Ha Hb. rewrite lookup_take_lt by done.
  by rewrite lookup_zip_with, Ha, Hb.
Qed.

Section ScalarKernel.

Context (a b : list Z) (n alpha : Z).
Hypothesis n_int : is_int32 n.
Hypothesis alpha_int16 : is_int16 alpha.
Hypothesis a_int16 : Forall is_int16 a.
Hypothesis b_int16 : Forall is_int16 b.
Hypothesis a_long : n <= Z.of_nat (length a).
Hypothesis b_long : n <= Z.of_nat (length b).

Lemma ref_element (i : nat) (ai bi : Z) :
  a !! i = Some ai -> b !! i = Some bi ->
  sat_q15 (axpy_acc ai alpha bi) = axpy_elem alpha ai bi.
Proof.
  intros Ha Hb. rewrite sat_q15_saturate. unfold axpy_elem.
  rewrite axpy_acc_exact; [done| |done|].
  - exact (Forall_lookup_1 _ _ _ _ a_int16 Ha).
  - exact (Forall_lookup_1 _ _ _ _ b_int16 Hb).
Qed.

Lemma q15_axpy_ref_loop_closed (fuel i : nat) (y : list Z) :
  Z.of_nat i <= n -> n <= Z.of_nat (length y) ->
  (Z.to_nat n - i <= fuel)%nat ->
  q15_axpy_ref_loop fuel a b y n alpha (Z.of_nat i)
  = Ok (axpy_from a b y (Z.to_nat n) alpha i).
Proof.
  revert i y. induction fuel as [|fuel IH]; intros i y Hi Hy Hfuel.
  - simpl. destruct (Z.ltb_spec (Z.of_nat i) n); [lia|].
    replace i with (Z.to_nat n) by lia. by rewrite axpy_from_done.
  - simpl. destruct (Z.ltb_spec (Z.of_nat i) n) as [Hlt|Hge].
    + destruct (lookup_lt_is_Some_2 a i) as [ai Ha]; [lia|].
      destruct (lookup_lt_is_Some_2 b i) as [bi Hb]; [lia|].
      rewrite (load_lookup a i ai Ha), (load_lookup b i bi Hb). simpl.
      rewrite (ref_element i ai bi Ha Hb).
      rewrite store_insert by lia. simpl.
      rewrite (next_index n) by done.
      rewrite IH by (rewrite ?length_insert; lia).
      f_equal. unfold axpy_from.
      rewrite (take_S_r _ i (axpy_elem alpha ai bi))
        by (apply list_lookup_insert_eq; lia).
      rewrite take_insert_ge by lia.
      rewrite drop_insert_lt by lia.
      rewrite (drop_S (take _ _) (axpy_elem alpha ai bi) i)
        by (apply axpy_prefix_lookup; [lia|done..]).
      by rewrite <- app_assoc.
    + replace i with (Z.to_nat n) by lia. by rewrite axpy_from_done.
Qed.

Lemma q15_axpy_ref_closed (y : list Z) :
  0 <= n -> n <= Z.of_nat (length y) ->
  q15_axpy_ref a b y n alpha = Ok (axpy_out a b y n alpha).
Proof.
  intros Hn Hy. unfold q15_axpy_ref.
  change 0 with (Z.of_nat 0).
  rewrite q15_axpy_ref_loop_closed by lia. by rewrite axpy_from_start.
Qed.

End ScalarKernel.

(** ** The vector instructions on 16-bit data *)

Lemma roundoff_signed_no_shift (m : vxrm) (w : Z) : roundoff_signed m w 0 = w.
Proof.
  unfold roundoff_signed, rounding_increment, bit, low_bits_set.
  rewrite Z.shiftr_0_r.
  destruct m; simpl; rewrite ?Z.testbit_neg_r by lia; simpl;
    rewrite ?Z.land_0_r, ?andb_false_r; simpl; lia.
Qed.

Lemma clip_signed_16 (v : Z) : clip_signed 16 v = saturate v.
Proof. reflexivity. Qed.

(** One lane of multiply, add and narrow is one element of the design's
    formula. *)
Lemma vector_lane (alpha ai bi : Z) :
  is_int16 alpha -> is_int16 ai -> is_int16 bi ->
  clip_signed 16
    (roundoff_signed VXRM_RNU
       (wrap_signed 32 (wrap_signed 32 (to_int16 bi * to_int16 alpha) + to_int16 ai))
       (Z.land 0 31))
  = axpy_elem alpha ai bi.
Proof.
  intros Hal Ha Hb. change (Z.land 0 31) with 0.
  rewrite roundoff_signed_no_shift, clip_signed_16.
  rewrite !to_int16_id by done.
  pose proof (int16_product_range alpha bi Hal Hb) as Hp.
  pose proof (int16_accumulator_range ai alpha bi Ha Hal Hb) as Hs.
  fold (to_int32 (bi * alpha)). rewrite (to_int32_id (bi * alpha))
    by (unfold is_int32, INT32_MIN, INT32_MAX; lia).
  fold (to_int32 (bi * alpha + ai)). rewrite to_int32_id
    by (unfold is_int32, INT32_MIN, INT32_MAX; lia).
  unfold axpy_elem. f_equal. lia.
Qed.

Lemma vector_chunk (alpha vl : Z) (va vb : list Z) :
  is_int16 alpha -> Forall is_int16 va -> Forall is_int16 vb ->
  vnclip_wx_i16m1 (vwadd_wv_i32m2 (vwmul_vx_i32m2 vb alpha vl) va vl) 0 VXRM_RNU vl
  = zip_with (axpy_elem alpha) (take (Z.to_nat vl) va) (take (Z.to_nat vl) vb).
Proof.
  intros Hal. unfold vnclip_wx_i16m1, vwadd_wv_i32m2, vwmul_vx_i32m2.
  generalize (Z.to_nat vl) as k. intros k. revert k vb.
  induction va as [|ai va IH]; intros k vb Ha Hb.
  - destruct k, vb; reflexivity.
  - destruct k as [|k]; [reflexivity|].
    destruct vb as [|bi vb]; [reflexivity|].
    apply Forall_cons in Ha as [Hai Ha]. apply Forall_cons in Hb as [Hbi Hb].
    simpl. f_equal.
    + by apply vector_lane.
    + specialize (IH k vb Ha Hb). simpl in IH.
      by rewrite <- IH.
Qed.

Lemma vle16_slice (m : list Z) (p k : nat) :
  (p + k <= length m)%nat ->
  vle16_v_i16m1 m (Z.of_nat p) (Z.of_nat k) = Ok (take k (drop p m)).
Proof.
  intros H. unfold vle16_v_i16m1.
  destruct (Z.leb_spec 0 (Z.of_nat p)); [|lia].
  destruct (Z.leb_spec 0 (Z.of_nat k)); [|lia].
  destruct (Z.leb_spec (Z.of_nat p + Z.of_nat k) (Z.of_nat (length m))); [|lia].
  by rewrite !Nat2Z.id.
Qed.

Lemma list_inserts_splice (p : nat) (v m : list Z) :
  (p + length v <= length m)%nat ->
  list_inserts p v m = take p m ++ v ++ drop (p + length v) m.
Proof.
  intros H.
  rewrite <- (take_drop p m) at 1.
  rewrite <- (take_drop (length v) (drop p m)) at 1.
  replace p with (length (take p m) + 0)%nat at 1
    by (rewrite length_take; lia).
  rewrite list_inserts_app_r. f_equal.
  rewrite list_inserts_0_r by (rewrite length_take, length_drop; lia).
  by rewrite drop_drop.
Qed.

Lemma vse16_splice (m v : list Z) (p k : nat) :
  length v = k -> (p + k <= length m)%nat ->
  vse16_v_i16m1 m (Z.of_nat p) v (Z.of_nat k)
  = Ok (take p m ++ v ++ drop (p + k) m).
Proof.
  intros Hv H. unfold vse16_v_i16m1.
  destruct (Z.leb_spec 0 (Z.of_nat p)); [|lia].
  destruct (Z.leb_spec 0 (Z.of_nat k)); [|lia].
  destruct (Z.leb_spec (Z.of_nat p + Z.of_nat k) (Z.of_nat (length m))); [|lia].
  simpl. rewrite !Nat2Z.id. rewrite take_ge by lia.
  rewrite list_inserts_splice by lia. by rewrite Hv.
Qed.

(** A chunk of [k] freshly stored elements at offset [p] leaves the closed
    form of the remaining work unchanged. *)
Lemma axpy_from_chunk (a b y : list Z) (n : nat) (alpha : Z) (p k : nat) :
  (p + k <= n)%nat -> (n <= length y)%nat ->
  (n <= length (zip_with (axpy_elem alpha) a b))%nat ->
  axpy_from a b
    (take p y ++ take k (drop p (zip_with (axpy_elem alpha) a b)) ++ drop (p + k) y)
    n alpha (p + k)
  = axpy_from a b y n alpha p.
Proof.
  intros Hpk Hy Hz. unfold axpy_from.
  set (zs := zip_with (axpy_elem alpha) a b) in *.
  assert (Hchunk : length (take k (drop p zs)) = k)
    by (rewrite length_take, length_drop; lia).
  assert (Hpre : length (take p y) = p) by (rewrite length_take; lia).
  rewrite (take_app_add' (take p y) _ p k) by done.
  rewrite (take_app_length' _ _ k) by done.
  replace n with (p + (k + (n - p - k)))%nat at 2 by lia.
  rewrite (drop_app_add' (take p y) _ p) by done.
  rewrite (drop_app_add' (take k (drop p zs)) _ k) by done.
  rewrite drop_drop.
  replace (p + k + (n - p - k))%nat with n by lia.
  rewrite <- (take_drop k (drop p (take n zs))).
  rewrite drop_drop.
  rewrite (take_drop_commute (take n zs)), take_take.
  replace ((p + k) `min` n)%nat with (p + k)%nat by lia.
  rewrite <- take_drop_commute.
  by rewrite <- !app_assoc.
Qed.

(** ** The vector loop in closed form *)

Section VectorKernel.

Context (XLEN : Z) (vsetvl : Z -> Z).
Hypothesis XLEN_wide : 32 <= XLEN.
Hypothesis vsetvl_grant : forall avl, 0 < avl -> 0 < vsetvl avl <= avl.

Context (a b : list Z) (n alpha : Z).
Hypothesis n_int : is_int32 n.
Hypothesis alpha_int16 : is_int16 alpha.
Hypothesis a_int16 : Forall is_int16 a.
Hypothesis b_int16 : Forall is_int16 b.
Hypothesis a_long : n <= Z.of_nat (length a).
Hypothesis b_long : n <= Z.of_nat (length b).

Lemma size_t_holds_int (v : Z) : 0 <= v <= INT32_MAX -> wrap_unsigned XLEN v = v.
Proof.
  intros Hv. unfold wrap_unsigned. apply Z.mod_small.
  assert (2 ^ 32 <= 2 ^ XLEN) by (apply Z.pow_le_mono_r; lia).
  change (2 ^ 32) with 4294967296 in *. unfold INT32_MAX in Hv. lia.
Qed.

Lemma q15_axpy_rvv_loop_closed (fuel p : nat) (y : list Z) :
  Z.of_nat p <= n -> n <= Z.of_nat (length y) ->
  (Z.to_nat n - p <= fuel)%nat ->
  q15_axpy_rvv_loop XLEN vsetvl fuel a b y
    (Z.of_nat p) (Z.of_nat p) (Z.of_nat p) alpha (n - Z.of_nat p)
  = Ok (axpy_from a b y (Z.to_nat n) alpha p).
Proof.
  revert p y. induction fuel as [|fuel IH]; intros p y Hp Hy Hfuel.
  - simpl. destruct (Z.gtb_spec (n - Z.of_nat p) 0); [lia|].
    replace p with (Z.to_nat n) by lia. by rewrite axpy_from_done.
  - simpl. destruct (Z.gtb_spec (n - Z.of_nat p) 0) as [Hrem|Hrem].
    + destruct (vsetvl_grant (n - Z.of_nat p)) as [Hvl0 Hvl]; [lia|].
      set (k := Z.to_nat (vsetvl (n - Z.of_nat p))).
      assert (Hk : vsetvl (n - Z.of_nat p) = Z.of_nat k) by lia.
      rewrite Hk.
      rewrite (vle16_slice a p k), (vle16_slice b p k) by lia. simpl.
      rewrite vector_chunk
        by auto using Forall_take, Forall_drop.
      rewrite Nat2Z.id, !take_take, Nat.min_id.
      rewrite <- zip_with_take, <- zip_with_drop.
      assert (Hz : (Z.to_nat n <= length (zip_with (axpy_elem alpha) a b))%nat)
        by (rewrite length_zip_with; lia).
      rewrite vse16_splice
        by (rewrite ?length_take, ?length_drop; lia).
      simpl.
      replace (Z.of_nat p + Z.of_nat k) with (Z.of_nat (p + k)) by lia.
      replace (n - Z.of_nat p - Z.of_nat k) with (n - Z.of_nat (p + k)) by lia.
      rewrite size_t_holds_int
        by (unfold is_int32, INT32_MIN, INT32_MAX in *; lia).
      rewrite IH.
      * f_equal. apply axpy_from_chunk; lia.
      * lia.
      * rewrite !length_app, length_take, length_take, !length_drop. lia.
      * lia.
    + replace p with (Z.to_nat n) by lia. by rewrite axpy_from_done.
Qed.

Lemma q15_axpy_rvv_closed (y : list Z) :
  0 <= n -> n <= Z.of_nat (length y) ->
  q15_axpy_rvv XLEN vsetvl a b y n alpha = Ok (axpy_out a b y n alpha).
Proof.
  intros Hn Hy. unfold q15_axpy_rvv. cbv zeta.
  rewrite size_t_holds_int by (unfold is_int32, INT32_MIN, INT32_MAX in *; lia).
  pose proof (q15_axpy_rvv_loop_closed (Z.to_nat n) 0 y) as H.
  change (Z.of_nat 0) with 0 in H. rewrite Z.sub_0_r in H.
  rewrite H by lia. by rewrite axpy_from_start.
Qed.

End VectorKernel.

(** ** The comparison loop in closed form *)

Lemma abs_diff_exact (r t : Z) :
  is_int16 r -> is_int16 t ->
  (let diff := sub32 (to_int32 r) (to_int32 t) in
   if diff <? 0 then neg32 diff else diff) = Z.abs (r - t).
Proof.
  intros Hr Ht. cbv zeta. unfold sub32, neg32.
  rewrite (to_int32_id r), (to_int32_id t) by auto using is_int16_int32.
  unfold is_int16, INT16_MIN, INT16_MAX in *.
  rewrite (to_int32_id (r - t)) by (unfold is_int32, INT32_MIN, INT32_MAX; lia).
  destruct (Z.ltb_spec (r - t) 0).
  - rewrite to_int32_id by (unfold is_int32, INT32_MIN, INT32_MAX; lia). lia.
  - lia.
Qed.

Lemma all_zero_cons (x : Z) (ds : list Z) :
  all_zero (x :: ds) = (0 =? x) && all_zero ds.
Proof. reflexivity. Qed.

Lemma max_of_cons (x : Z) (ds : list Z) : max_of (x :: ds) = Z.max x (max_of ds).
Proof. reflexivity. Qed.

Lemma max_of_upper (ds : list Z) (x : Z) : x ∈ ds -> x <= max_of ds.
Proof.
  induction ds as [|d ds IH]; intros Hx.
  - by apply elem_of_nil in Hx.
  - apply elem_of_cons in Hx as [->|Hx]; simpl; [lia|].
    specialize (IH Hx). lia.
Qed.

Lemma max_of_attained (ds : list Z) :
  Forall (fun d => 0 <= d) ds -> ds <> [] -> max_of ds ∈ ds.
Proof.
  induction ds as [|d ds IH]; intros Hpos Hne; [done|].
  apply Forall_cons in Hpos as [Hd Hpos]. simpl.
  destruct ds as [|d' ds].
  - simpl. rewrite Z.max_l by lia. apply list_elem_of_here.
  - destruct (Z.max_spec d (max_of (d' :: ds))) as [[_ ->]|[_ ->]].
    + apply list_elem_of_further. by apply IH.
    + apply list_elem_of_here.
Qed.

Lemma max_of_nonneg (ds : list Z) : 0 <= max_of ds.
Proof. induction ds; simpl; lia. Qed.

Lemma all_zero_zip (l k : list Z) :
  length l = length k ->
  all_zero (zip_with (fun r t => Z.abs (r - t)) l k) = true <-> l = k.
Proof.
  revert k. induction l as [|x l IH]; intros [|z k] Hlen; try done.
  simpl in *. rewrite andb_true_iff, IH by lia. split.
  - intros [Hx ->]. f_equal. destruct (Z.abs (x - z)) eqn:E; [lia|done..].
  - intros [= -> ->]. rewrite Z.sub_diag. done.
Qed.

Section Checker.

Context (ref test : list Z) (n : Z).
Hypothesis n_int : is_int32 n.
Hypothesis ref_int16 : Forall is_int16 ref.
Hypothesis test_int16 : Forall is_int16 test.
Hypothesis ref_long : n <= Z.of_nat (length ref).
Hypothesis test_long : n <= Z.of_nat (length test).

Lemma abs_diffs_lookup (i : nat) (r t : Z) :
  (i < Z.to_nat n)%nat -> ref !! i = Some r -> test !! i = Some t ->
  abs_diffs ref test (Z.to_nat n) !! i = Some (Z.abs (r - t)).
Proof.
  intros Hi Hr Ht. unfold abs_diffs. rewrite lookup_take_lt by done.
  by rewrite lookup_zip_with, Hr, Ht.
Qed.

Lemma arrays_match_loop_closed (fuel i : nat) (m d : Z) :
  0 <= d -> Z.of_nat i <= n -> (Z.to_nat n - i <= fuel)%nat ->
  arrays_match_loop fuel ref test n (Z.of_nat i) m d
  = Ok (if all_zero (drop i (abs_diffs ref test (Z.to_nat n))) then m else 0,
        Z.max d (max_of (drop i (abs_diffs ref test (Z.to_nat n))))).
Proof.
  assert (Hdone : forall (i : nat) (m d : Z), 0 <= d -> n <= Z.of_nat i ->
    Ok (m, d)
    = Ok (if all_zero (drop i (abs_diffs ref test (Z.to_nat n))) then m else 0,
          Z.max d (max_of (drop i (abs_diffs ref test (Z.to_nat n)))))).
  { intros j m' d' Hd' Hj.
    rewrite drop_ge by (unfold abs_diffs; rewrite length_take; lia).
    simpl. by rewrite Z.max_l. }
  revert i m d. induction fuel as [|fuel IH]; intros i m d Hd Hi Hfuel.
  - simpl. destruct (Z.ltb_spec (Z.of_nat i) n); [lia|]. by apply Hdone.
  - simpl. destruct (Z.ltb_spec (Z.of_nat i) n) as [Hlt|Hge]; [|by apply Hdone].
    destruct (lookup_lt_is_Some_2 ref i) as [r Hr]; [lia|].
    destruct (lookup_lt_is_Some_2 test i) as [t Ht]; [lia|].
    rewrite (load_lookup ref i r Hr), (load_lookup test i t Ht). simpl.
    pose proof (abs_diff_exact r t (Forall_lookup_1 _ _ _ _ ref_int16 Hr)
                  (Forall_lookup_1 _ _ _ _ test_int16 Ht)) as Habs.
    cbv zeta in Habs. rewrite Habs. clear Habs.
    rewrite (next_index n) by done.
    rewrite IH by (try destruct (Z.gtb_spec (Z.abs (r - t)) d); lia).
    rewrite (drop_S (abs_diffs ref test (Z.to_nat n)) (Z.abs (r - t)) i)
      by (apply abs_diffs_lookup; [lia|done..]).
    rewrite all_zero_cons, max_of_cons.
    pose proof (max_of_nonneg (drop (S i) (abs_diffs ref test (Z.to_nat n)))).
    destruct (Z.eqb_spec (Z.abs (r - t)) 0) as [Hz|Hz];
      destruct (Z.eqb_spec 0 (Z.abs (r - t))); try lia;
      destruct (Z.gtb_spec (Z.abs (r - t)) d);
      destruct (all_zero _); simpl; f_equal; f_equal; lia.
Qed.

Lemma arrays_match_closed :
  0 <= n ->
  arrays_match ref test n
  = Ok (if all_zero (abs_diffs ref test (Z.to_nat n)) then 1 else 0,
        max_of (abs_diffs ref test (Z.to_nat n))).
Proof.
  intros Hn. unfold arrays_match. change 0 with (Z.of_nat 0) at 1.
  rewrite arrays_match_loop_closed by lia.
  rewrite drop_0. f_equal. f_equal.
  pose proof (max_of_nonneg (abs_diffs ref test (Z.to_nat n))). lia.
Qed.

Lemma all_zero_prefix :
  0 <= n ->
  all_zero (abs_diffs ref test (Z.to_nat n)) = true
  <-> take (Z.to_nat n) ref = take (Z.to_nat n) test.
Proof.
  intros Hn. unfold abs_diffs. rewrite zip_with_take.
  apply all_zero_zip. rewrite !length_take. lia.
Qed.

End Checker.

(** ** The saturation primitive: contract *)

(** C3: [sat_q15] is a total function on 32-bit signed integers that returns
    32767 above 32767, -32768 below -32768 and its argument unchanged in
    between; the result is always a 16-bit value, also at both ends of the
    32-bit range. *)
Theorem sat_q15_clamps (v : Z) :
  is_int32 v ->
  (v > 32767 -> sat_q15 v = 32767) /\
  (v < -32768 -> sat_q15 v = -32768) /\
  (-32768 <= v <= 32767 -> sat_q15 v = v) /\
  is_int16 (sat_q15 v) /\
  sat_q15 INT32_MAX = 32767 /\
  sat_q15 INT32_MIN = -32768.
Proof.
  intros _. rewrite !sat_q15_saturate.
  pose proof (saturate_is_int16 v) as Hr.
  unfold saturate, INT16_MIN, INT16_MAX, INT32_MAX, INT32_MIN in *.
  repeat split; try lia; apply Hr.
Qed.

Lemma sat_q15_clamps_witness :
  is_int32 2147483647 /\
  (2147483647 > 32767 -> sat_q15 2147483647 = 32767) /\
  (2147483647 < -32768 -> sat_q15 2147483647 = -32768) /\
  (-32768 <= 2147483647 <= 32767 -> sat_q15 2147483647 = 2147483647) /\
  is_int16 (sat_q15 2147483647) /\
  sat_q15 INT32_MAX = 32767 /\
  sat_q15 INT32_MIN = -32768.
Proof.
  assert (H : is_int32 2147483647) by (unfold is_int32, INT32_MIN, INT32_MAX; lia).
  split; [exact H | exact (sat_q15_clamps 2147483647 H)].
Defined.

(** ** The accumulator: range *)

(** C6, as stated, fails: with [a = 32767] and [alpha = b = -32768] the
    accumulator is [2^30 + 32767], above [32768 + 32767 * 32768 = 2^30]. *)
Lemma axpy_acc_exceeds_stated_bound :
  ~ (forall ai alpha bi : Z,
       is_int16 ai -> is_int16 alpha -> is_int16 bi ->
       Z.abs (axpy_acc ai alpha bi) <= 32768 + 32767 * 32768).
Proof.
  intros H.
  assert (Hmax : is_int16 32767) by (unfold is_int16, INT16_MIN, INT16_MAX; lia).
  assert (Hmin : is_int16 (-32768)) by (unfold is_int16, INT16_MIN, INT16_MAX; lia).
  specialize (H 32767 (-32768) (-32768) Hmax Hmin Hmin).
  vm_compute in H. by apply H.
Qed.

(** C6, amended: for 16-bit [a], [b] and [alpha] the exact accumulator
    [a + alpha * b] has magnitude at most [32767 + 32768 * 32768], so it and
    the product fit in 32 bits and the 32-bit computation of [q15_axpy_ref]
    never wraps. *)
Theorem axpy_acc_fits_int32 (ai alpha bi : Z) :
  is_int16 ai -> is_int16 alpha -> is_int16 bi ->
  Z.abs (ai + alpha * bi) <= 32767 + 32768 * 32768 /\
  is_int32 (alpha * bi) /\
  is_int32 (ai + alpha * bi) /\
  mul32 (to_int32 alpha) (to_int32 bi) = alpha * bi /\
  axpy_acc ai alpha bi = ai + alpha * bi.
Proof.
  intros Ha Hal Hb.
  pose proof (int16_product_range alpha bi Hal Hb) as Hp.
  pose proof (int16_accumulator_range ai alpha bi Ha Hal Hb) as Hs.
  assert (Hprod : is_int32 (alpha * bi))
    by (unfold is_int32, INT32_MIN, INT32_MAX; lia).
  repeat split; try (unfold INT32_MIN, INT32_MAX; lia).
  - unfold mul32. rewrite (to_int32_id alpha), (to_int32_id bi)
      by auto using is_int16_int32.
    by apply to_int32_id.
  - by apply axpy_acc_exact.
Qed.

Lemma axpy_acc_fits_int32_witness :
  Z.abs (32767 + -32768 * -32768) <= 32767 + 32768 * 32768 /\
  is_int32 (-32768 * -32768) /\
  is_int32 (32767 + -32768 * -32768) /\
  mul32 (to_int32 (-32768)) (to_int32 (-32768)) = -32768 * -32768 /\
  axpy_acc 32767 (-32768) (-32768) = 32767 + -32768 * -32768.
Proof.
  apply (axpy_acc_fits_int32 32767 (-32768) (-32768));
    unfold is_int16, INT16_MIN, INT16_MAX; lia.
Defined.

(** ** The scalar kernel: contract *)

Lemma axpy_out_length (a b y : list Z) (n alpha : Z) :
  n <= Z.of_nat (length a) -> n <= Z.of_nat (length b) ->
  n <= Z.of_nat (length y) ->
  length (axpy_out a b y n alpha) = length y.
Proof.
  intros Ha Hb Hy. unfold axpy_out.
  rewrite length_app, length_take, length_zip_with, length_drop. lia.
Qed.

Lemma axpy_out_computed (a b y : list Z) (n alpha : Z) (i : nat) (ai bi : Z) :
  Z.of_nat i < n -> a !! i = Some ai -> b !! i = Some bi ->
  axpy_out a b y n alpha !! i = Some (saturate (ai + alpha * bi)).
Proof.
  intros Hi Ha Hb. unfold axpy_out.
  rewrite lookup_app_l.
  - apply axpy_prefix_lookup; [lia|done..].
  - apply lookup_lt_Some with (axpy_elem alpha ai bi).
    apply axpy_prefix_lookup; [lia|done..].
Qed.

Lemma axpy_out_kept (a b y : list Z) (n alpha : Z) (i : nat) :
  0 <= n -> n <= Z.of_nat (length a) -> n <= Z.of_nat (length b) ->
  n <= Z.of_nat i ->
  axpy_out a b y n alpha !! i = y !! i.
Proof.
  intros Hn Ha Hb Hi. unfold axpy_out.
  assert (Hlen : length (take (Z.to_nat n) (zip_with (axpy_elem alpha) a b))
                 = Z.to_nat n)
    by (rewrite length_take, length_zip_with; lia).
  rewrite lookup_app_r by lia.
  rewrite lookup_drop, Hlen. f_equal. lia.
Qed.

(** C2: on 16-bit inputs of length at least [n >= 0], [q15_axpy_ref] returns
    normally; element [i < n] of the output is
    [saturate (a[i] + alpha * b[i])], the 32-bit accumulator being that exact
    sum; every other element of [y] is left as it was; with [n = 0] the
    buffer is returned unchanged. *)
Theorem q15_axpy_ref_contract (a b y : list Z) (n alpha : Z) :
  0 <= n <= INT32_MAX -> is_int16 alpha ->
  Forall is_int16 a -> Forall is_int16 b ->
  n <= Z.of_nat (length a) -> n <= Z.of_nat (length b) ->
  n <= Z.of_nat (length y) ->
  exists out,
    q15_axpy_ref a b y n alpha = Ok out /\
    length out = length y /\
    (forall (i : nat) (ai bi : Z),
        Z.of_nat i < n -> a !! i = Some ai -> b !! i = Some bi ->
        axpy_acc ai alpha bi = ai + alpha * bi /\
        out !! i = Some (saturate (ai + alpha * bi))) /\
    (forall i : nat, n <= Z.of_nat i -> out !! i = y !! i) /\
    (n = 0 -> out = y).
Proof.
  intros Hn Hal Ha Hb Hla Hlb Hly.
  exists (axpy_out a b y n alpha). split; [|split; [|split; [|split]]].
  - apply q15_axpy_ref_closed; try done; [|lia].
    unfold is_int32, INT32_MIN, INT32_MAX in *. lia.
  - by apply axpy_out_length.
  - intros i ai bi Hi Hai Hbi. split.
    + apply axpy_acc_exact; [|done|].
      * exact (Forall_lookup_1 _ _ _ _ Ha Hai).
      * exact (Forall_lookup_1 _ _ _ _ Hb Hbi).
    + by apply axpy_out_computed.
  - intros i Hi. apply axpy_out_kept; lia.
  - intros ->. reflexivity.
Qed.

Lemma q15_axpy_ref_contract_witness :
  exists out,
    q15_axpy_ref [32767; -5; 100] [1; 32767; 200] [0; 0; 0; 9] 3 5 = Ok out /\
    length out = length [0; 0; 0; 9] /\
    (forall (i : nat) (ai bi : Z),
        Z.of_nat i < 3 ->
        [32767; -5; 100] !! i = Some ai -> [1; 32767; 200] !! i = Some bi ->
        axpy_acc ai 5 bi = ai + 5 * bi /\
        out !! i = Some (saturate (ai + 5 * bi))) /\
    (forall i : nat, 3 <= Z.of_nat i -> out !! i = [0; 0; 0; 9] !! i) /\
    (3 = 0 -> out = [0; 0; 0; 9]).
Proof.
  apply (q15_axpy_ref_contract [32767; -5; 100] [1; 32767; 200] [0; 0; 0; 9] 3 5);
    try int16_list; unfold is_int16, INT16_MIN, INT16_MAX, INT32_MAX;
    simpl; lia.
Defined.

(** ** The vector kernel against the scalar kernel *)

Lemma vsetvl_min_grant (vlmax : Z) :
  0 < vlmax -> forall avl, 0 < avl -> 0 < vsetvl_min vlmax avl <= avl.
Proof. intros Hv avl Havl. unfold vsetvl_min. lia. Qed.

(** C1: for every [n >= 0], 16-bit [alpha] and 16-bit inputs of length at
    least [n], [q15_axpy_rvv] returns the very output buffer [q15_axpy_ref]
    returns, whatever chunk sizes [vsetvl] grants (a last partial chunk
    included), and so does the fallback build; the common result is a
    normal return. *)
Theorem q15_axpy_rvv_equals_ref (XLEN : Z) (vsetvl : Z -> Z)
    (a b y : list Z) (n alpha : Z) :
  32 <= XLEN ->
  (forall avl, 0 < avl -> 0 < vsetvl avl <= avl) ->
  0 <= n <= INT32_MAX -> is_int16 alpha ->
  Forall is_int16 a -> Forall is_int16 b ->
  n <= Z.of_nat (length a) -> n <= Z.of_nat (length b) ->
  n <= Z.of_nat (length y) ->
  q15_axpy_rvv XLEN vsetvl a b y n alpha = q15_axpy_ref a b y n alpha /\
  q15_axpy_rvv_fallback a b y n alpha = q15_axpy_ref a b y n alpha /\
  exists out, q15_axpy_ref a b y n alpha = Ok out /\ length out = length y.
Proof.
  intros HX Hvl Hn Hal Ha Hb Hla Hlb Hly.
  assert (Hn32 : is_int32 n) by (unfold is_int32, INT32_MIN, INT32_MAX in *; lia).
  unfold q15_axpy_rvv_fallback.
  rewrite q15_axpy_rvv_closed by (done || lia).
  rewrite q15_axpy_ref_closed by (done || lia).
  split; [done|]. split; [done|].
  exists (axpy_out a b y n alpha). split; [done|]. by apply axpy_out_length.
Qed.

Lemma q15_axpy_rvv_equals_ref_witness :
  q15_axpy_rvv 64 (vsetvl_min 2) [1; 2; 30000; -4; 5] [1; 1; 1; 1; -32768]
      [0; 0; 0; 0; 0; 7] 5 32767
    = q15_axpy_ref [1; 2; 30000; -4; 5] [1; 1; 1; 1; -32768]
        [0; 0; 0; 0; 0; 7] 5 32767 /\
  q15_axpy_rvv_fallback [1; 2; 30000; -4; 5] [1; 1; 1; 1; -32768]
      [0; 0; 0; 0; 0; 7] 5 32767
    = q15_axpy_ref [1; 2; 30000; -4; 5] [1; 1; 1; 1; -32768]
        [0; 0; 0; 0; 0; 7] 5 32767 /\
  exists out,
    q15_axpy_ref [1; 2; 30000; -4; 5] [1; 1; 1; 1; -32768]
      [0; 0; 0; 0; 0; 7] 5 32767 = Ok out /\
    length out = length [0; 0; 0; 0; 0; 7].
Proof.
  apply (q15_axpy_rvv_equals_ref 64 (vsetvl_min 2));
    try int16_list; try (apply vsetvl_min_grant);
    unfold is_int16, INT16_MIN, INT16_MAX, INT32_MAX; simpl; lia.
Defined.

(** ** Output range *)

(** C5: in every valid call of either kernel each of the [n] output elements
    is the saturation primitive applied to the exact, unclamped accumulator
    [a[i] + alpha * b[i]], and therefore lies in [-32768, 32767]. *)
Theorem output_in_int16_range (XLEN : Z) (vsetvl : Z -> Z)
    (a b y : list Z) (n alpha : Z) :
  32 <= XLEN ->
  (forall avl, 0 < avl -> 0 < vsetvl avl <= avl) ->
  0 <= n <= INT32_MAX -> is_int16 alpha ->
  Forall is_int16 a -> Forall is_int16 b ->
  n <= Z.of_nat (length a) -> n <= Z.of_nat (length b) ->
  n <= Z.of_nat (length y) ->
  exists out_ref out_rvv,
    q15_axpy_ref a b y n alpha = Ok out_ref /\
    q15_axpy_rvv XLEN vsetvl a b y n alpha = Ok out_rvv /\
    q15_axpy_rvv_fallback a b y n alpha = Ok out_ref /\
    forall (i : nat) (ai bi : Z),
      Z.of_nat i < n -> a !! i = Some ai -> b !! i = Some bi ->
      out_ref !! i = Some (sat_q15 (ai + alpha * bi)) /\
      out_rvv !! i = Some (sat_q15 (ai + alpha * bi)) /\
      is_int16 (sat_q15 (ai + alpha * bi)).
Proof.
  intros HX Hvl Hn Hal Ha Hb Hla Hlb Hly.
  assert (Hn32 : is_int32 n) by (unfold is_int32, INT32_MIN, INT32_MAX in *; lia).
  exists (axpy_out a b y n alpha), (axpy_out a b y n alpha).
  unfold q15_axpy_rvv_fallback.
  rewrite q15_axpy_rvv_closed by (done || lia).
  rewrite q15_axpy_ref_closed by (done || lia).
  repeat split; try done;
    rewrite sat_q15_saturate; try (by apply axpy_out_computed);
    apply saturate_is_int16.
Qed.

Lemma output_in_int16_range_witness :
  exists out_ref out_rvv,
    q15_axpy_ref [32767; -32768; 7] [1; 32767; -3] [0; 0; 0] 3 32767
      = Ok out_ref /\
    q15_axpy_rvv 32 (vsetvl_min 2) [32767; -32768; 7] [1; 32767; -3] [0; 0; 0]
      3 32767 = Ok out_rvv /\
    q15_axpy_rvv_fallback [32767; -32768; 7] [1; 32767; -3] [0; 0; 0] 3 32767
      = Ok out_ref /\
    forall (i : nat) (ai bi : Z),
      Z.of_nat i < 3 ->
      [32767; -32768; 7] !! i = Some ai -> [1; 32767; -3] !! i = Some bi ->
      out_ref !! i = Some (sat_q15 (ai + 32767 * bi)) /\
      out_rvv !! i = Some (sat_q15 (ai + 32767 * bi)) /\
      is_int16 (sat_q15 (ai + 32767 * bi)).
Proof.
  apply (output_in_int16_range 32 (vsetvl_min 2));
    try int16_list; try (apply vsetvl_min_grant);
    unfold is_int16, INT16_MIN, INT16_MAX, INT32_MAX; simpl; lia.
Defined.

(** ** Empty and negative lengths *)

(** C8: with [n = 0] neither kernel enters its loop (no iteration budget is
    needed) and the output buffer is returned exactly as it was passed. *)
Theorem zero_length_is_no_op (XLEN : Z) (vsetvl : Z -> Z) (a b y : list Z)
    (alpha : Z) :
  q15_axpy_ref a b y 0 alpha = Ok y /\
  q15_axpy_rvv XLEN vsetvl a b y 0 alpha = Ok y /\
  q15_axpy_rvv_fallback a b y 0 alpha = Ok y /\
  q15_axpy_ref_loop 0 a b y 0 alpha 0 = Ok y /\
  q15_axpy_rvv_loop XLEN vsetvl 0 a b y 0 0 0 alpha (wrap_unsigned XLEN 0) = Ok y.
Proof.
  assert (H0 : wrap_unsigned XLEN 0 = 0) by apply Zmod_0_l.
  unfold q15_axpy_rvv_fallback, q15_axpy_ref, q15_axpy_rvv. cbv zeta.
  rewrite H0. repeat split.
Qed.

(** C9: for a negative [n] the scalar kernel's loop guard fails at once: the
    call returns the output buffer untouched, exactly as with [n = 0]. *)
Theorem negative_length_is_no_op (a b y : list Z) (n alpha : Z) :
  n < 0 ->
  q15_axpy_ref a b y n alpha = Ok y /\
  q15_axpy_ref a b y n alpha = q15_axpy_ref a b y 0 alpha /\
  forall fuel, q15_axpy_ref_loop fuel a b y n alpha 0 = Ok y.
Proof.
  intros Hn.
  assert (Hloop : forall fuel, q15_axpy_ref_loop fuel a b y n alpha 0 = Ok y).
  { intros fuel. destruct fuel; simpl; destruct (Z.ltb_spec 0 n); (lia || done). }
  unfold q15_axpy_ref. rewrite Hloop. repeat split. apply Hloop.
Qed.

Lemma negative_length_is_no_op_witness :
  q15_axpy_ref [1; 2] [3; 4] [5; 6] (-3) 7 = Ok [5; 6] /\
  q15_axpy_ref [1; 2] [3; 4] [5; 6] (-3) 7 = q15_axpy_ref [1; 2] [3; 4] [5; 6] 0 7 /\
  forall fuel, q15_axpy_ref_loop fuel [1; 2] [3; 4] [5; 6] (-3) 7 0 = Ok [5; 6].
Proof.
  apply (negative_length_is_no_op [1; 2] [3; 4] [5; 6] (-3) 7). lia.
Defined.

(** ** The equivalence checker: contract *)

Lemma all_zero_max_of (ds : list Z) : all_zero ds = true -> max_of ds = 0.
Proof.
  induction ds as [|x ds IH]; [done|].
  rewrite all_zero_cons, max_of_cons, andb_true_iff.
  intros [Hx%Z.eqb_eq Hds]. rewrite IH by done. lia.
Qed.

Lemma abs_diffs_length (ref test : list Z) (n : nat) :
  (n <= length ref)%nat -> (n <= length test)%nat ->
  length (abs_diffs ref test n) = n.
Proof.
  intros Hr Ht. unfold abs_diffs. rewrite length_take, length_zip_with. lia.
Qed.

Lemma abs_diffs_lookup_inv (ref test : list Z) (n i : nat) (x : Z) :
  abs_diffs ref test n !! i = Some x ->
  (i < n)%nat /\
  exists r t, ref !! i = Some r /\ test !! i = Some t /\ x = Z.abs (r - t).
Proof.
  unfold abs_diffs. intros [Hx Hi]%lookup_take_Some. split; [done|].
  rewrite lookup_zip_with in Hx.
  destruct (ref !! i) as [r|]; [|done]. destruct (test !! i) as [t|]; [|done].
  simpl in Hx. exists r, t. by inversion Hx.
Qed.

Lemma abs_diffs_sym (x y : list Z) (n : nat) : abs_diffs x y n = abs_diffs y x n.
Proof.
  unfold abs_diffs. f_equal. revert y.
  induction x as [|r x IH]; intros [|t y]; try done.
  simpl. rewrite IH. f_equal. lia.
Qed.

(** C4: on 16-bit sequences of length at least [n >= 0], [arrays_match]
    returns a flag [m] and a value [d] such that [d] bounds every
    [|ref[i] - test[i]|] with [i < n] and is one of them (or is 0 when
    [n = 0]), that is, [d] is their maximum; [m] is 1 or 0; [m = 1] together
    with [d = 0] holds exactly when the two sequences agree on their first
    [n] elements; and [m = 0] as soon as one pair differs. *)
Theorem arrays_match_contract (ref test : list Z) (n : Z) :
  0 <= n <= INT32_MAX ->
  Forall is_int16 ref -> Forall is_int16 test ->
  n <= Z.of_nat (length ref) -> n <= Z.of_nat (length test) ->
  exists m d,
    arrays_match ref test n = Ok (m, d) /\
    (forall (i : nat) (r t : Z),
        Z.of_nat i < n -> ref !! i = Some r -> test !! i = Some t ->
        Z.abs (r - t) <= d) /\
    ((n = 0 /\ d = 0) \/
     exists (i : nat) (r t : Z),
       Z.of_nat i < n /\ ref !! i = Some r /\ test !! i = Some t /\
       d = Z.abs (r - t)) /\
    (m = 1 \/ m = 0) /\
    ((m = 1 /\ d = 0) <-> take (Z.to_nat n) ref = take (Z.to_nat n) test) /\
    (m = 1 <-> take (Z.to_nat n) ref = take (Z.to_nat n) test) /\
    (forall (i : nat) (r t : Z),
        Z.of_nat i < n -> ref !! i = Some r -> test !! i = Some t ->
        r <> t -> m = 0 /\ 0 < d).
Proof.
  intros Hn Hr Ht Hlr Hlt.
  assert (Hn32 : is_int32 n) by (unfold is_int32, INT32_MIN, INT32_MAX in *; lia).
  set (ds := abs_diffs ref test (Z.to_nat n)).
  exists (if all_zero ds then 1 else 0), (max_of ds).
  assert (Hbound : forall (i : nat) (r t : Z),
             Z.of_nat i < n -> ref !! i = Some r -> test !! i = Some t ->
             Z.abs (r - t) <= max_of ds).
  { intros i r t Hi Hri Hti. apply max_of_upper.
    apply (list_elem_of_lookup_2 _ i). apply abs_diffs_lookup; [lia|done..]. }
  assert (Heq : all_zero ds = true
                <-> take (Z.to_nat n) ref = take (Z.to_nat n) test)
    by (apply all_zero_prefix; lia).
  split; [by apply arrays_match_closed; try lia|].
  split; [exact Hbound|].
  split; [|split; [|split; [|split]]].
  - destruct (decide (n = 0)) as [->|Hn0]; [left; by split|right].
    assert (Hne : ds <> []).
    { intros Hnil. apply (f_equal length) in Hnil.
      unfold ds in Hnil. rewrite abs_diffs_length in Hnil by lia.
      simpl in Hnil. lia. }
    assert (Hpos : Forall (fun d => 0 <= d) ds).
    { apply Forall_lookup_2. intros i x Hx.
      apply abs_diffs_lookup_inv in Hx as (_ & r & t & _ & _ & ->). lia. }
    destruct (list_elem_of_lookup_1 _ _ (max_of_attained ds Hpos Hne)) as [i Hi].
    apply abs_diffs_lookup_inv in Hi as (Hlt' & r & t & Hri & Hti & Hd).
    exists i, r, t. repeat split; [lia|done..].
  - destruct (all_zero ds); auto.
  - rewrite <- Heq. split.
    + intros [Hm _]. by destruct (all_zero ds).
    + intros Hz. rewrite Hz. split; [done|]. by apply all_zero_max_of.
  - rewrite <- Heq. by destruct (all_zero ds).
  - intros i r t Hi Hri Hti Hne.
    specialize (Hbound i r t Hi Hri Hti).
    split; [|lia].
    destruct (all_zero ds) eqn:Hz; [|done].
    apply all_zero_max_of in Hz. lia.
Qed.

Lemma arrays_match_contract_witness :
  exists m d,
    arrays_match [1; -32768; 3] [1; 32767; 5] 3 = Ok (m, d) /\
    (forall (i : nat) (r t : Z),
        Z.of_nat i < 3 ->
        [1; -32768; 3] !! i = Some r -> [1; 32767; 5] !! i = Some t ->
        Z.abs (r - t) <= d) /\
    ((3 = 0 /\ d = 0) \/
     exists (i : nat) (r t : Z),
       Z.of_nat i < 3 /\ [1; -32768; 3] !! i = Some r /\
       [1; 32767; 5] !! i = Some t /\ d = Z.abs (r - t)) /\
    (m = 1 \/ m = 0) /\
    ((m = 1 /\ d = 0)
     <-> take (Z.to_nat 3) [1; -32768; 3] = take (Z.to_nat 3) [1; 32767; 5]) /\
    (m = 1
     <-> take (Z.to_nat 3) [1; -32768; 3] = take (Z.to_nat 3) [1; 32767; 5]) /\
    (forall (i : nat) (r t : Z),
        Z.of_nat i < 3 ->
        [1; -32768; 3] !! i = Some r -> [1; 32767; 5] !! i = Some t ->
        r <> t -> m = 0 /\ 0 < d).
Proof.
  apply (arrays_match_contract [1; -32768; 3] [1; 32767; 5] 3);
    try int16_list; unfold INT32_MAX; simpl; lia.
Defined.

(** C10: on 16-bit sequences of length at least [n >= 0], [arrays_match]
    returns the same flag and the same maximum difference whichever of the
    two sequences is passed first. *)
Theorem arrays_match_symmetric (x y : list Z) (n : Z) :
  0 <= n <= INT32_MAX ->
  Forall is_int16 x -> Forall is_int16 y ->
  n <= Z.of_nat (length x) -> n <= Z.of_nat (length y) ->
  exists m d,
    arrays_match x y n = Ok (m, d) /\ arrays_match y x n = Ok (m, d).
Proof.
  intros Hn Hx Hy Hlx Hly.
  assert (Hn32 : is_int32 n) by (unfold is_int32, INT32_MIN, INT32_MAX in *; lia).
  exists (if all_zero (abs_diffs x y (Z.to_nat n)) then 1 else 0),
    (max_of (abs_diffs x y (Z.to_nat n))).
  split; [by apply arrays_match_closed; try lia|].
  rewrite (abs_diffs_sym x y). by apply arrays_match_closed; try lia.
Qed.

Lemma arrays_match_symmetric_witness :
  exists m d,
    arrays_match [4; -7; 32767] [4; 9; -32768] 3 = Ok (m, d) /\
    arrays_match [4; 9; -32768] [4; -7; 32767] 3 = Ok (m, d).
Proof.
  apply (arrays_match_symmetric [4; -7; 32767] [4; 9; -32768] 3);
    try int16_list; unfold INT32_MAX; simpl; lia.
Defined.

(** ** The edge-case battery *)

Lemma edge_case_inv (kref krvv : kernel) (a b alpha e : Z) (s s' : edge_state) :
  edge_case kref krvv a b alpha e s = Ok s' -> s'.2 = 1 ->
  s.2 = 1 /\ s'.1 = (e, e) /\
  case_passes kref a b alpha e s.1.1 /\ case_passes krvv a b alpha e s.1.2.
Proof.
  destruct s as [[y1 y2] p], s' as [[y1' y2'] p']. unfold edge_case, case_passes.
  destruct (kref [a] [b] [y1] 1 alpha) as [o1| |] eqn:Hk1; simpl; try done.
  destruct (krvv [a] [b] [y2] 1 alpha) as [o2| |] eqn:Hk2; simpl; try done.
  destruct (load o1 0) as [v1| |] eqn:Hl1; simpl; try done.
  destruct (load o2 0) as [v2| |] eqn:Hl2; simpl; try done.
  intros [= <- <- <-] Hp.
  destruct (Z.eqb_spec v1 e) as [H1|H1]; [|done].
  destruct (Z.eqb_spec v2 e) as [H2|H2]; [|done].
  simpl in Hp. subst v1 v2. eauto 10.
Qed.

Lemma edge_case_pass (kref krvv : kernel) (a b alpha e y1 y2 p : Z) :
  case_passes kref a b alpha e y1 -> case_passes krvv a b alpha e y2 ->
  edge_case kref krvv a b alpha e (y1, y2, p) = Ok (e, e, p).
Proof.
  intros (o1 & Hk1 & Hl1) (o2 & Hk2 & Hl2). unfold edge_case.
  rewrite Hk1, Hk2. simpl. rewrite Hl1, Hl2. simpl.
  by rewrite Z.eqb_refl.
Qed.

Lemma bind_Ok {A B : Type} (x : A) (f : A -> result B) : (Ok x ≫= f) = f x.
Proof. reflexivity. Qed.

Lemma run_edge_tests_with_passes (kref krvv : kernel) (y1 y2 : Z) :
  run_edge_tests_with kref krvv y1 y2 = Ok 1
  <-> battery_cases_pass kref krvv y1 y2.
Proof.
  unfold run_edge_tests_with, battery_cases_pass. split.
  - destruct (edge_case kref krvv 32767 1 1 32767 (y1, y2, 1))
      as [s1| |] eqn:E1; simpl; try done.
    destruct (edge_case kref krvv (-32768) 1 (-1) (-32768) s1)
      as [s2| |] eqn:E2; simpl; try done.
    destruct (edge_case kref krvv 0 32767 32767 32767 s2)
      as [s3| |] eqn:E3; simpl; try done.
    destruct (edge_case kref krvv 100 200 5 1100 s3)
      as [s4| |] eqn:E4; simpl; try done.
    intros [= Hp4].
    destruct (edge_case_inv _ _ _ _ _ _ _ _ E4 Hp4) as (Hp3 & _ & H4r & H4v).
    destruct (edge_case_inv _ _ _ _ _ _ _ _ E3 Hp3) as (Hp2 & Hy3 & H3r & H3v).
    destruct (edge_case_inv _ _ _ _ _ _ _ _ E2 Hp2) as (Hp1 & Hy2 & H2r & H2v).
    destruct (edge_case_inv _ _ _ _ _ _ _ _ E1 Hp1) as (_ & Hy1 & H1r & H1v).
    rewrite Hy3 in H4r, H4v. rewrite Hy2 in H3r, H3v. rewrite Hy1 in H2r, H2v.
    done.
  - intros ((H1r & H1v) & (H2r & H2v) & (H3r & H3v) & (H4r & H4v)).
    rewrite (edge_case_pass _ _ _ _ _ _ _ _ _ H1r H1v), bind_Ok. cbv beta.
    rewrite (edge_case_pass _ _ _ _ _ _ _ _ _ H2r H2v), bind_Ok. cbv beta.
    rewrite (edge_case_pass _ _ _ _ _ _ _ _ _ H3r H3v), bind_Ok. cbv beta.
    by rewrite (edge_case_pass _ _ _ _ _ _ _ _ _ H4r H4v), bind_Ok.
Qed.

Section EdgeCases.

Context (XLEN : Z) (vsetvl : Z -> Z).
Hypothesis XLEN_wide : 32 <= XLEN.
Hypothesis vsetvl_grant : forall avl, 0 < avl -> 0 < vsetvl avl <= avl.

Lemma rvv_single (a b alpha y0 : Z) :
  is_int16 a -> is_int16 b -> is_int16 alpha ->
  q15_axpy_rvv XLEN vsetvl [a] [b] [y0] 1 alpha
  = Ok [saturate (a + alpha * b)].
Proof.
  intros Ha Hb Hal.
  rewrite q15_axpy_rvv_closed
    by first [ done
             | by apply Forall_singleton
             | unfold is_int32, INT32_MIN, INT32_MAX; simpl; lia ].
  reflexivity.
Qed.

End EdgeCases.

(** C7: each of the four single-element cases gives its expected value from
    [q15_axpy_ref], from [q15_axpy_rvv] and from the fallback build, whatever
    the output local held before; the battery over any two kernels returns
    1 exactly when all four cases pass for both of them; and the battery
    over the repository's kernels returns 1. *)
Theorem edge_cases_hold (XLEN : Z) (vsetvl : Z -> Z) :
  32 <= XLEN ->
  (forall avl, 0 < avl -> 0 < vsetvl avl <= avl) ->
  (forall y0,
      q15_axpy_ref [32767] [1] [y0] 1 1 = Ok [32767] /\
      q15_axpy_rvv XLEN vsetvl [32767] [1] [y0] 1 1 = Ok [32767] /\
      q15_axpy_rvv_fallback [32767] [1] [y0] 1 1 = Ok [32767]) /\
  (forall y0,
      q15_axpy_ref [-32768] [1] [y0] 1 (-1) = Ok [-32768] /\
      q15_axpy_rvv XLEN vsetvl [-32768] [1] [y0] 1 (-1) = Ok [-32768] /\
      q15_axpy_rvv_fallback [-32768] [1] [y0] 1 (-1) = Ok [-32768]) /\
  (forall y0,
      q15_axpy_ref [0] [32767] [y0] 1 32767 = Ok [32767] /\
      q15_axpy_rvv XLEN vsetvl [0] [32767] [y0] 1 32767 = Ok [32767] /\
      q15_axpy_rvv_fallback [0] [32767] [y0] 1 32767 = Ok [32767]) /\
  (forall y0,
      q15_axpy_ref [100] [200] [y0] 1 5 = Ok [1100] /\
      q15_axpy_rvv XLEN vsetvl [100] [200] [y0] 1 5 = Ok [1100] /\
      q15_axpy_rvv_fallback [100] [200] [y0] 1 5 = Ok [1100]) /\
  (forall (kref krvv : kernel) (y1 y2 : Z),
      run_edge_tests_with kref krvv y1 y2 = Ok 1
      <-> battery_cases_pass kref krvv y1 y2) /\
  (forall y1 y2,
      run_edge_tests XLEN vsetvl y1 y2 = Ok 1 /\
      run_edge_tests_fallback y1 y2 = Ok 1).
Proof.
  intros HX Hvl.
  assert (Hrvv : forall a b alpha y0,
             is_int16 a -> is_int16 b -> is_int16 alpha ->
             q15_axpy_rvv XLEN vsetvl [a] [b] [y0] 1 alpha
             = Ok [saturate (a + alpha * b)])
    by (intros; by apply rvv_single).
  split; [|split; [|split; [|split; [|split]]]].
  - intros y0. rewrite Hrvv by int16_value. repeat split.
  - intros y0. rewrite Hrvv by int16_value. repeat split.
  - intros y0. rewrite Hrvv by int16_value. repeat split.
  - intros y0. rewrite Hrvv by int16_value. repeat split.
  - intros kref krvv y1 y2. apply run_edge_tests_with_passes.
  - intros y1 y2. unfold run_edge_tests, run_edge_tests_fallback.
    rewrite !run_edge_tests_with_passes.
    unfold battery_cases_pass, case_passes, q15_axpy_rvv_fallback.
    rewrite !Hrvv by int16_value.
    repeat split; eexists; split; reflexivity.
Qed.

Lemma edge_cases_hold_witness :
  (forall y0,
      q15_axpy_ref [32767] [1] [y0] 1 1 = Ok [32767] /\
      q15_axpy_rvv 64 (vsetvl_min 8) [32767] [1] [y0] 1 1 = Ok [32767] /\
      q15_axpy_rvv_fallback [32767] [1] [y0] 1 1 = Ok [32767]) /\
  (forall y0,
      q15_axpy_ref [-32768] [1] [y0] 1 (-1) = Ok [-32768] /\
      q15_axpy_rvv 64 (vsetvl_min 8) [-32768] [1] [y0] 1 (-1) = Ok [-32768] /\
      q15_axpy_rvv_fallback [-32768] [1] [y0] 1 (-1) = Ok [-32768]) /\
  (forall y0,
      q15_axpy_ref [0] [32767] [y0] 1 32767 = Ok [32767] /\
      q15_axpy_rvv 64 (vsetvl_min 8) [0] [32767] [y0] 1 32767 = Ok [32767] /\
      q15_axpy_rvv_fallback [0] [32767] [y0] 1 32767 = Ok [32767]) /\
  (forall y0,
      q15_axpy_ref [100] [200] [y0] 1 5 = Ok [1100] /\
      q15_axpy_rvv 64 (vsetvl_min 8) [100] [200] [y0] 1 5 = Ok [1100] /\
      q15_axpy_rvv_fallback [100] [200] [y0] 1 5 = Ok [1100]) /\
  (forall (kref krvv : kernel) (y1 y2 : Z),
      run_edge_tests_with kref krvv y1 y2 = Ok 1
      <-> battery_cases_pass kref krvv y1 y2) /\
  (forall y1 y2,
      run_edge_tests 64 (vsetvl_min 8) y1 y2 = Ok 1 /\
      run_edge_tests_fallback y1 y2 = Ok 1).
Proof.
  apply (edge_cases_hold 64 (vsetvl_min 8)); [lia|].
  apply vsetvl_min_grant. lia.
Defined.

(** * Further properties of the kernels and the checker *)

(** ** Saturation *)

(** X1: [sat_q15] is monotone: a larger accumulator never gives a smaller
    output. *)
Theorem sat_q15_monotone (v w : Z) : v <= w -> sat_q15 v <= sat_q15 w.
Proof.
  intros H. rewrite !sat_q15_saturate. unfold saturate, INT16_MIN, INT16_MAX. lia.
Qed.

Lemma sat_q15_monotone_witness : 32000 <= 40000 /\ sat_q15 32000 <= sat_q15 40000.
Proof. split; [lia | apply (sat_q15_monotone 32000 40000); lia]. Defined.

(** ** The kernels as operations on buffers *)

Lemma axpy_identity_prefix (a b : list Z) (n : nat) :
  Forall is_int16 a -> (n <= length b)%nat ->
  take n (zip_with (axpy_elem 0) a b) = take n a.
Proof.
  intros Ha Hb. apply list_eq. intros i.
  destruct (decide (i < n)%nat) as [Hi|Hi].
  - rewrite !lookup_take_lt by done. rewrite lookup_zip_with.
    destruct (a !! i) as [ai|] eqn:Hai; [|done]. simpl.
    destruct (lookup_lt_is_Some_2 b i) as [bi ->]; [lia|]. simpl.
    pose proof (Forall_lookup_1 _ _ _ _ Ha Hai) as Hr.
    unfold axpy_elem, saturate. unfold is_int16 in Hr. f_equal. lia.
  - by rewrite !lookup_take_ge by lia.
Qed.

(** X2: with [alpha = 0] both kernels copy the first [n] elements of [a]
    into the output buffer and leave the rest of it alone. *)
Theorem zero_alpha_copies_a (XLEN : Z) (vsetvl : Z -> Z) (a b y : list Z) (n : Z) :
  32 <= XLEN ->
  (forall avl, 0 < avl -> 0 < vsetvl avl <= avl) ->
  0 <= n <= INT32_MAX ->
  Forall is_int16 a -> Forall is_int16 b ->
  n <= Z.of_nat (length a) -> n <= Z.of_nat (length b) ->
  n <= Z.of_nat (length y) ->
  q15_axpy_ref a b y n 0 = Ok (take (Z.to_nat n) a ++ drop (Z.to_nat n) y) /\
  q15_axpy_rvv XLEN vsetvl a b y n 0
  = Ok (take (Z.to_nat n) a ++ drop (Z.to_nat n) y).
Proof.
  intros HX Hvl Hn Ha Hb Hla Hlb Hly.
  assert (Hn32 : is_int32 n) by (unfold is_int32, INT32_MIN, INT32_MAX in *; lia).
  assert (H0 : is_int16 0) by int16_value.
  rewrite q15_axpy_rvv_closed by (done || lia).
  rewrite q15_axpy_ref_closed by (done || lia).
  unfold axpy_out. rewrite axpy_identity_prefix by (done || lia). done.
Qed.

Lemma zero_alpha_copies_a_witness :
  q15_axpy_ref [5; -7; 32767] [9; 9; 9] [0; 0; 0; 4] 3 0
  = Ok (take (Z.to_nat 3) [5; -7; 32767] ++ drop (Z.to_nat 3) [0; 0; 0; 4]) /\
  q15_axpy_rvv 64 (vsetvl_min 2) [5; -7; 32767] [9; 9; 9] [0; 0; 0; 4] 3 0
  = Ok (take (Z.to_nat 3) [5; -7; 32767] ++ drop (Z.to_nat 3) [0; 0; 0; 4]).
Proof.
  apply (zero_alpha_copies_a 64 (vsetvl_min 2));
    try int16_list; try (apply vsetvl_min_grant);
    unfold INT32_MAX; simpl; lia.
Defined.




Lemma axpy_out_app (a1 b1 y1 a2 b2 y2 : list Z) (n2 alpha : Z) :
  length b1 = length a1 -> length y1 = length a1 -> 0 <= n2 ->
  axpy_out (a1 ++ a2) (b1 ++ b2) (y1 ++ y2) (Z.of_nat (length a1) + n2) alpha
  = axpy_out a1 b1 y1 (Z.of_nat (length a1)) alpha ++ axpy_out a2 b2 y2 n2 alpha.
Proof.
  intros Hb1 Hy1 Hn2. unfold axpy_out.
  replace (Z.to_nat (Z.of_nat (length a1) + n2))
    with (length a1 + Z.to_nat n2)%nat by lia.
  rewrite Nat2Z.id.
  rewrite zip_with_app by done.
  assert (Hz : length (zip_with (axpy_elem alpha) a1 b1) = length a1)
    by (rewrite length_zip_with; lia).
  rewrite (take_app_add' _ _ (length a1)) by done.
  rewrite (drop_app_add' y1 _ (length a1)) by done.
  rewrite (take_ge (zip_with _ a1 b1)) by lia.
  rewrite (drop_ge y1) by lia.
  by rewrite app_nil_r, app_assoc.
Qed.

(** X4: the scalar kernel distributes over concatenation: a call on two
    problems laid end to end returns the two separate outputs laid end to
    end, provided the first problem fills its buffers. *)
Theorem q15_axpy_ref_concat (a1 b1 y1 a2 b2 y2 : list Z) (n2 alpha : Z) :
  length b1 = length a1 -> length y1 = length a1 ->
  0 <= n2 -> Z.of_nat (length a1) + n2 <= INT32_MAX ->
  is_int16 alpha ->
  Forall is_int16 a1 -> Forall is_int16 b1 ->
  Forall is_int16 a2 -> Forall is_int16 b2 ->
  n2 <= Z.of_nat (length a2) -> n2 <= Z.of_nat (length b2) ->
  n2 <= Z.of_nat (length y2) ->
  exists out1 out2,
    q15_axpy_ref a1 b1 y1 (Z.of_nat (length a1)) alpha = Ok out1 /\
    q15_axpy_ref a2 b2 y2 n2 alpha = Ok out2 /\
    q15_axpy_ref (a1 ++ a2) (b1 ++ b2) (y1 ++ y2) (Z.of_nat (length a1) + n2) alpha
    = Ok (out1 ++ out2).
Proof.
  intros Hb1 Hy1 Hn2 Hmax Hal Ha1 Hb1' Ha2 Hb2 Hla2 Hlb2 Hly2.
  exists (axpy_out a1 b1 y1 (Z.of_nat (length a1)) alpha),
    (axpy_out a2 b2 y2 n2 alpha).
  rewrite <- axpy_out_app by done.
  repeat split; apply q15_axpy_ref_closed;
    rewrite ?length_app; try apply Forall_app_2; try done;
    unfold is_int32, INT32_MIN, INT32_MAX in *; lia.
Qed.

Lemma q15_axpy_ref_concat_witness :
  exists out1 out2,
    q15_axpy_ref [32767; 2] [1; 1] [0; 0] (Z.of_nat (length [32767; 2])) 7 = Ok out1 /\
    q15_axpy_ref [3; 4; 5] [-1; 0; 1] [0; 0; 8] 2 7 = Ok out2 /\
    q15_axpy_ref ([32767; 2] ++ [3; 4; 5]) ([1; 1] ++ [-1; 0; 1])
      ([0; 0] ++ [0; 0; 8]) (Z.of_nat (length [32767; 2]) + 2) 7
    = Ok (out1 ++ out2).
Proof.
  apply (q15_axpy_ref_concat [32767; 2] [1; 1] [0; 0] [3; 4; 5] [-1; 0; 1]
           [0; 0; 8] 2 7);
    try int16_list; try reflexivity;
    unfold is_int16, INT16_MIN, INT16_MAX, INT32_MAX; simpl; lia.
Defined.

(** X5: the vector kernel's result does not depend on the platform: two
    targets that differ in the width of [size_t] and in the chunk sizes
    [vsetvl] grants return the same buffer. *)
Theorem q15_axpy_rvv_platform_independent (XLEN1 XLEN2 : Z)
    (vsetvl1 vsetvl2 : Z -> Z) (a b y : list Z) (n alpha : Z) :
  32 <= XLEN1 -> 32 <= XLEN2 ->
  (forall avl, 0 < avl -> 0 < vsetvl1 avl <= avl) ->
  (forall avl, 0 < avl -> 0 < vsetvl2 avl <= avl) ->
  0 <= n <= INT32_MAX -> is_int16 alpha ->
  Forall is_int16 a -> Forall is_int16 b ->
  n <= Z.of_nat (length a) -> n <= Z.of_nat (length b) ->
  n <= Z.of_nat (length y) ->
  exists out,
    q15_axpy_rvv XLEN1 vsetvl1 a b y n alpha = Ok out /\
    q15_axpy_rvv XLEN2 vsetvl2 a b y n alpha = Ok out.
Proof.
  intros HX1 HX2 Hvl1 Hvl2 Hn Hal Ha Hb Hla Hlb Hly.
  assert (Hn32 : is_int32 n) by (unfold is_int32, INT32_MIN, INT32_MAX in *; lia).
  exists (axpy_out a b y n alpha).
  split; apply q15_axpy_rvv_closed; (done || lia).
Qed.

Lemma q15_axpy_rvv_platform_independent_witness :
  exists out,
    q15_axpy_rvv 32 (vsetvl_min 2) [1; 2; 30000; -4; 5] [1; 1; 1; 1; -32768]
      [0; 0; 0; 0; 0; 7] 5 32767 = Ok out /\
    q15_axpy_rvv 64 (vsetvl_min 16) [1; 2; 30000; -4; 5] [1; 1; 1; 1; -32768]
      [0; 0; 0; 0; 0; 7] 5 32767 = Ok out.
Proof.
  apply (q15_axpy_rvv_platform_independent 32 64 (vsetvl_min 2) (vsetvl_min 16));
    try int16_list; try (apply vsetvl_min_grant);
    unfold is_int16, INT16_MIN, INT16_MAX, INT32_MAX; simpl; lia.
Defined.

(** ** The vector kernel on a negative length *)

Lemma vle16_ok_or_out_of_bounds (m : list Z) (p vl : Z) :
  vle16_v_i16m1 m p vl = OutOfBounds \/
  (p + vl <= Z.of_nat (length m) /\ exists v, vle16_v_i16m1 m p vl = Ok v).
Proof.
  unfold vle16_v_i16m1.
  destruct (0 <=? p); simpl; [|by left].
  destruct (0 <=? vl); simpl; [|by left].
  destruct (Z.leb_spec (p + vl) (Z.of_nat (length m))); [|by left].
  right. eauto.
Qed.

Lemma vse16_ok_or_out_of_bounds (m v : list Z) (p vl : Z) :
  vse16_v_i16m1 m p v vl = OutOfBounds \/ exists m', vse16_v_i16m1 m p v vl = Ok m'.
Proof.
  unfold vse16_v_i16m1.
  destruct ((0 <=? p) && (0 <=? vl) && (p + vl <=? Z.of_nat (length m)));
    [right; eauto | by left].
Qed.

Section NegativeLength.

Context (XLEN : Z) (vsetvl : Z -> Z).
Hypothesis vsetvl_grant : forall avl, 0 < avl -> 0 < vsetvl avl <= avl.
Context (a b : list Z) (alpha : Z).

(** Once more elements remain than [a] still holds, the loop runs off the
    end of [a] (or of another buffer before that). *)
Lemma q15_axpy_rvv_loop_overrun (fuel : nat) (p remaining : Z) (y : list Z) :
  0 <= p <= Z.of_nat (length a) ->
  Z.of_nat (length a) - p < remaining < 2 ^ XLEN ->
  (Z.to_nat (Z.of_nat (length a) - p) < fuel)%nat ->
  q15_axpy_rvv_loop XLEN vsetvl fuel a b y p p p alpha remaining = OutOfBounds.
Proof.
  revert p remaining y.
  induction fuel as [|fuel IH]; intros p remaining y Hp Hrem Hfuel; [lia|].
  simpl. destruct (Z.gtb_spec remaining 0) as [Hpos|]; [|lia].
  destruct (vsetvl_grant remaining) as [Hvl0 Hvl]; [lia|].
  destruct (vle16_ok_or_out_of_bounds a p (vsetvl remaining))
    as [->|[Hfit [va ->]]]; [done|]. simpl.
  destruct (vle16_ok_or_out_of_bounds b p (vsetvl remaining))
    as [->|[_ [vb ->]]]; [done|]. simpl.
  match goal with
  | |- context [vse16_v_i16m1 y p ?v ?vl] =>
      destruct (vse16_ok_or_out_of_bounds y v p vl) as [->|[y' ->]]; [done|]
  end.
  simpl. unfold wrap_unsigned. rewrite Z.mod_small by lia.
  apply IH; lia.
Qed.

End NegativeLength.

(** X6: a negative [n] is not an empty call for the vector kernel: the cast
    to [size_t] turns it into [2^XLEN + n], and on buffers that fit in the
    address space the loop runs past the end of a buffer, where the scalar
    kernel returns at once. *)
Theorem q15_axpy_rvv_negative_length_overruns (XLEN : Z) (vsetvl : Z -> Z)
    (a b y : list Z) (n alpha : Z) :
  32 <= XLEN ->
  (forall avl, 0 < avl -> 0 < vsetvl avl <= avl) ->
  INT32_MIN <= n < 0 ->
  Z.of_nat (length a) < 2 ^ (XLEN - 1) ->
  q15_axpy_rvv XLEN vsetvl a b y n alpha = OutOfBounds /\
  q15_axpy_ref a b y n alpha = Ok y.
Proof.
  intros HX Hvl Hn Hla.
  assert (H2 : 2 ^ XLEN = 2 * 2 ^ (XLEN - 1)).
  { replace XLEN with (Z.succ (XLEN - 1)) at 1 by lia. apply Z.pow_succ_r. lia. }
  assert (H31 : 2 ^ 31 <= 2 ^ (XLEN - 1)) by (apply Z.pow_le_mono_r; lia).
  change (2 ^ 31) with 2147483648 in H31. unfold INT32_MIN in Hn.
  assert (Hwrap : wrap_unsigned XLEN n = 2 ^ XLEN + n).
  { unfold wrap_unsigned. symmetry. apply (Z.mod_unique n _ (-1)); lia. }
  split.
  - unfold q15_axpy_rvv. cbv zeta. rewrite Hwrap.
    apply q15_axpy_rvv_loop_overrun; [done|lia..].
  - unfold q15_axpy_ref. replace (Z.to_nat n) with O by lia. simpl.
    by destruct (Z.ltb_spec 0 n); [lia|].
Qed.

Lemma q15_axpy_rvv_negative_length_overruns_witness :
  q15_axpy_rvv 32 (vsetvl_min 2) [1; 2] [3; 4] [5; 6] (-1) 7 = OutOfBounds /\
  q15_axpy_ref [1; 2] [3; 4] [5; 6] (-1) 7 = Ok [5; 6].
Proof.
  apply (q15_axpy_rvv_negative_length_overruns 32 (vsetvl_min 2));
    try (apply vsetvl_min_grant); unfold INT32_MIN; simpl; lia.
Defined.

(** ** More on the equivalence checker *)


Lemma all_zero_same (x : list Z) (n : nat) : all_zero (abs_diffs x x n) = true.
Proof.
  unfold abs_diffs. rewrite zip_with_take. by apply all_zero_zip.
Qed.

(** X7: comparing a 16-bit sequence with itself reports a match and a
    maximum difference of 0. *)
Theorem arrays_match_same (x : list Z) (n : Z) :
  0 <= n <= INT32_MAX -> Forall is_int16 x -> n <= Z.of_nat (length x) ->
  arrays_match x x n = Ok (1, 0).
Proof.
  intros Hn Hx Hl.
  assert (Hn32 : is_int32 n) by (unfold is_int32, INT32_MIN, INT32_MAX in *; lia).
  rewrite arrays_match_closed by (done || lia).
  by rewrite (all_zero_max_of _ (all_zero_same x _)), all_zero_same.
Qed.

Lemma arrays_match_same_witness : arrays_match [4; -32768; 32767] [4; -32768; 32767] 3 = Ok (1, 0).
Proof.
  apply (arrays_match_same [4; -32768; 32767] 3);
    try int16_list; unfold INT32_MAX; simpl; lia.
Defined.



(** X9: with [n <= 0] the checker reads nothing and reports a match with
    maximum difference 0, whatever the two buffers hold. *)
Theorem arrays_match_nothing_to_compare (ref test : list Z) (n : Z) :
  n <= 0 -> arrays_match ref test n = Ok (1, 0).
Proof.
  intros Hn. unfold arrays_match. replace (Z.to_nat n) with O by lia. simpl.
  by destruct (Z.ltb_spec 0 n); [lia|].
Qed.

Lemma arrays_match_nothing_to_compare_witness :
  arrays_match [1; 2] [] (-5) = Ok (1, 0).
Proof. apply (arrays_match_nothing_to_compare [1; 2] [] (-5)). lia. Defined.

(** * The benchmark driver *)

(** ** The test data *)

Lemma to_int16_range (v : Z) : is_int16 (to_int16 v).
Proof.
  unfold is_int16, INT16_MIN, INT16_MAX, to_int16, wrap_signed.
  change (2 ^ (16 - 1)) with 32768. change (2 ^ 16) with 65536.
  pose proof (Z.mod_pos_bound (v + 32768) 65536). lia.
Qed.

Lemma rand_sample_exact (r : Z) :
  0 <= r <= INT32_MAX -> rand_sample r = r mod 65536 - 32768.
Proof.
  intros Hr. unfold rand_sample, sub32, INT32_MAX in *.
  rewrite Z.rem_mod_nonneg by lia.
  pose proof (Z.mod_pos_bound r 65536).
  rewrite to_int32_id by (unfold is_int32, INT32_MIN, INT32_MAX; lia).
  apply to_int16_id. unfold is_int16, INT16_MIN, INT16_MAX. lia.
Qed.

(** X10: for a value [r] that [rand()] can return, the sample stored in a
    buffer is [r mod 65536 - 32768], computed without wrap-around and inside
    the 16-bit range; it is negative exactly when [r mod 65536 < 32768], so a
    generator whose values stay below 32768 yields negative samples only. *)
Theorem rand_sample_value (r : Z) :
  0 <= r <= INT32_MAX ->
  rand_sample r = r mod 65536 - 32768 /\
  is_int16 (rand_sample r) /\
  (rand_sample r < 0 <-> r mod 65536 < 32768) /\
  (r <= 32767 -> rand_sample r = r - 32768).
Proof.
  intros Hr. rewrite rand_sample_exact by done.
  pose proof (Z.mod_pos_bound r 65536).
  unfold is_int16, INT16_MIN, INT16_MAX.
  repeat split; try lia.
  intros Hs. rewrite Z.mod_small; lia.
Qed.

Lemma rand_sample_value_witness :
  rand_sample 2147483647 = 2147483647 mod 65536 - 32768 /\
  is_int16 (rand_sample 2147483647) /\
  (rand_sample 2147483647 < 0 <-> 2147483647 mod 65536 < 32768) /\
  (2147483647 <= 32767 -> rand_sample 2147483647 = 2147483647 - 32768).
Proof. apply (rand_sample_value 2147483647). unfold INT32_MAX. lia. Defined.

(** X11: every 16-bit value is the sample of a [rand()] result below 65536,
    namely of the value plus 32768. *)
Theorem rand_sample_covers_int16 (v : Z) :
  is_int16 v -> 0 <= v + 32768 <= 65535 /\ rand_sample (v + 32768) = v.
Proof.
  unfold is_int16, INT16_MIN, INT16_MAX. intros Hv. split; [lia|].
  rewrite rand_sample_exact by (unfold INT32_MAX; lia).
  rewrite Z.mod_small; lia.
Qed.

Lemma rand_sample_covers_int16_witness :
  0 <= -32768 + 32768 <= 65535 /\ rand_sample (-32768 + 32768) = -32768.
Proof. apply (rand_sample_covers_int16 (-32768)). int16_value. Defined.

Lemma samples_length (rand : nat -> Z) (c k : nat) : length (samples rand c k) = k.
Proof. revert c. induction k as [|k IH]; intros c; simpl; [done|]. by rewrite IH. Qed.

Lemma samples_lookup (rand : nat -> Z) (c k j : nat) :
  (j < k)%nat -> samples rand c k !! j = Some (rand_sample (rand (c + 2 * j)%nat)).
Proof.
  revert c j. induction k as [|k IH]; intros c j Hj; [lia|].
  destruct j as [|j]; simpl.
  - do 3 f_equal. lia.
  - rewrite IH by lia. do 3 f_equal. lia.
Qed.

Lemma samples_int16 (rand : nat -> Z) (c k : nat) : Forall is_int16 (samples rand c k).
Proof.
  revert c. induction k as [|k IH]; intros c; simpl; [done|].
  apply Forall_cons. split; [apply to_int16_range | apply IH].
Qed.

Section Fill.

Context (rand : nat -> Z) (n : Z).
Hypothesis n_int : is_int32 n.

Lemma fill_loop_closed (fuel i c : nat) (a b : list Z) :
  Z.of_nat i <= n ->
  n <= Z.of_nat (length a) -> n <= Z.of_nat (length b) ->
  (Z.to_nat n - i <= fuel)%nat ->
  fill_loop fuel rand c a b n (Z.of_nat i)
  = Ok (take i a ++ samples rand c (Z.to_nat n - i) ++ drop (Z.to_nat n) a,
        take i b ++ samples rand (S c) (Z.to_nat n - i) ++ drop (Z.to_nat n) b,
        (c + 2 * (Z.to_nat n - i))%nat).
Proof.
  revert i c a b. induction fuel as [|fuel IH]; intros i c a b Hi Ha Hb Hfuel.
  - simpl. destruct (Z.ltb_spec (Z.of_nat i) n); [lia|].
    replace (Z.to_nat n - i)%nat with O by lia. simpl.
    replace i with (Z.to_nat n) by lia. rewrite !take_drop.
    do 2 f_equal. lia.
  - simpl. destruct (Z.ltb_spec (Z.of_nat i) n) as [Hlt|Hge].
    + rewrite !store_insert by lia. simpl.
      rewrite (next_index n) by done.
      rewrite IH by (rewrite ?length_insert; lia).
      replace (Z.to_nat n - i)%nat with (S (Z.to_nat n - S i)) by lia.
      simpl.
      rewrite (take_S_r (<[i:=rand_sample (rand c)]> a) i (rand_sample (rand c)))
        by (apply list_lookup_insert_eq; lia).
      rewrite (take_S_r (<[i:=rand_sample (rand (S c))]> b) i
                 (rand_sample (rand (S c))))
        by (apply list_lookup_insert_eq; lia).
      rewrite !take_insert_ge by lia.
      rewrite !drop_insert_lt by lia.
      rewrite <- !app_assoc. simpl. do 2 f_equal. lia.
    + replace (Z.to_nat n - i)%nat with O by lia. simpl.
      replace i with (Z.to_nat n) by lia. rewrite !take_drop.
      do 2 f_equal. lia.
Qed.

End Fill.

(** X12: the fill loop over [n] elements returns normally after [2 n] calls
    of the generator; element [j < n] of [a] is the sample of call [2 j], the
    same element of [b] that of call [2 j + 1]; all of them are 16-bit
    values and the rest of both buffers is untouched. *)
Theorem fill_loop_contract (rand : nat -> Z) (c : nat) (a b : list Z) (n : Z) :
  0 <= n <= INT32_MAX ->
  n <= Z.of_nat (length a) -> n <= Z.of_nat (length b) ->
  exists a' b',
    fill_loop (Z.to_nat n) rand c a b n 0 = Ok (a', b', (c + 2 * Z.to_nat n)%nat) /\
    (forall j : nat, Z.of_nat j < n ->
       a' !! j = Some (rand_sample (rand (c + 2 * j)%nat)) /\
       b' !! j = Some (rand_sample (rand (c + 2 * j + 1)%nat))) /\
    Forall is_int16 (take (Z.to_nat n) a') /\
    Forall is_int16 (take (Z.to_nat n) b') /\
    drop (Z.to_nat n) a' = drop (Z.to_nat n) a /\
    drop (Z.to_nat n) b' = drop (Z.to_nat n) b.
Proof.
  intros Hn Ha Hb.
  assert (Hn32 : is_int32 n) by (unfold is_int32, INT32_MIN, INT32_MAX in *; lia).
  exists (samples rand c (Z.to_nat n) ++ drop (Z.to_nat n) a),
    (samples rand (S c) (Z.to_nat n) ++ drop (Z.to_nat n) b).
  split.
  - change 0 with (Z.of_nat 0).
    rewrite (fill_loop_closed rand n Hn32 (Z.to_nat n) 0 c a b) by lia.
    rewrite Nat.sub_0_r. done.
  - split; [|rewrite !take_app_length', !drop_app_length'
                by (by rewrite samples_length);
              auto using samples_int16].
    intros j Hj.
    rewrite !lookup_app_l by (rewrite samples_length; lia).
    rewrite !samples_lookup by lia. split; do 3 f_equal; lia.
Qed.

Lemma fill_loop_contract_witness :
  exists a' b',
    fill_loop (Z.to_nat 2) (fun k => Z.of_nat k * 40000) 0 [0; 0; 9] [0; 0] 2 0
    = Ok (a', b', (0 + 2 * Z.to_nat 2)%nat) /\
    (forall j : nat, Z.of_nat j < 2 ->
       a' !! j = Some (rand_sample (Z.of_nat (0 + 2 * j)%nat * 40000)) /\
       b' !! j = Some (rand_sample (Z.of_nat (0 + 2 * j + 1)%nat * 40000))) /\
    Forall is_int16 (take (Z.to_nat 2) a') /\
    Forall is_int16 (take (Z.to_nat 2) b') /\
    drop (Z.to_nat 2) a' = drop (Z.to_nat 2) [0; 0; 9] /\
    drop (Z.to_nat 2) b' = drop (Z.to_nat 2) [0; 0].
Proof.
  apply (fill_loop_contract (fun k => Z.of_nat k * 40000) 0 [0; 0; 9] [0; 0] 2);
    unfold INT32_MAX; simpl; lia.
Defined.

(** ** The driver's verdict *)

Lemma axpy_elems_int16 (a b : list Z) (alpha : Z) :
  Forall is_int16 (zip_with (axpy_elem alpha) a b).
Proof.
  apply Forall_lookup_2. intros i x Hx.
  apply lookup_zip_with_Some in Hx as (ai & bi & -> & _ & _).
  apply saturate_is_int16.
Qed.

Lemma axpy_out_full (a b y : list Z) (n alpha : Z) :
  length y = Z.to_nat n ->
  axpy_out a b y n alpha = take (Z.to_nat n) (zip_with (axpy_elem alpha) a b).
Proof.
  intros Hy. unfold axpy_out. rewrite drop_ge by lia. apply app_nil_r.
Qed.

Lemma battery_passes_on_target (XLEN : Z) (vsetvl : Z -> Z) (y1 y2 : Z) :
  32 <= XLEN -> (forall avl, 0 < avl -> 0 < vsetvl avl <= avl) ->
  run_edge_tests_with q15_axpy_ref (q15_axpy_rvv XLEN vsetvl) y1 y2 = Ok 1.
Proof.
  intros HX Hvl. apply run_edge_tests_with_passes.
  unfold battery_cases_pass, case_passes.
  rewrite !(rvv_single XLEN vsetvl HX Hvl) by int16_value.
  repeat split; eexists; split; reflexivity.
Qed.

Lemma battery_passes_on_host (y1 y2 : Z) :
  run_edge_tests_with q15_axpy_ref q15_axpy_rvv_fallback y1 y2 = Ok 1.
Proof.
  apply run_edge_tests_with_passes.
  unfold battery_cases_pass, case_passes, q15_axpy_rvv_fallback.
  repeat split; eexists; split; reflexivity.
Qed.

(** The driver with a vector kernel that passes the battery and returns the
    closed form of the scalar kernel on the benchmark call. *)
Lemma main_with_agreeing (krvv : kernel) (rand : nat -> Z) (y1 y2 : Z)
    (a b yr yv : list Z) :
  run_edge_tests_with q15_axpy_ref krvv y1 y2 = Ok 1 ->
  (forall a' b' : list Z,
      Forall is_int16 a' -> Forall is_int16 b' ->
      length a' = Z.to_nat N -> length b' = Z.to_nat N ->
      krvv a' b' yv N 3 = Ok (axpy_out a' b' yv N 3)) ->
  length a = Z.to_nat N -> length b = Z.to_nat N ->
  length yr = Z.to_nat N -> length yv = Z.to_nat N ->
  main_with krvv rand y1 y2 (Some a) (Some b) (Some yr) (Some yv)
  = Ok (0, Some (1, 0)).
Proof.
  unfold main_with.
  assert (HN : 0 <= N <= INT32_MAX) by (unfold N, INT32_MAX; lia).
  revert HN. generalize N. intros n HN Hbat Hk Ha Hb Hyr Hyv.
  assert (Hn32 : is_int32 n) by (unfold is_int32, INT32_MIN, INT32_MAX in *; lia).
  rewrite Hbat, bind_Ok.
  pose proof (fill_loop_closed rand n Hn32 (Z.to_nat n) 0 0 a b) as Hfill.
  change (Z.of_nat 0) with 0 in Hfill.
  rewrite Hfill by lia. clear Hfill. rewrite bind_Ok. cbv beta zeta.
  rewrite Nat.sub_0_r, !take_0, !(drop_ge _ (Z.to_nat n)), !app_nil_r by lia.
  simpl.
  rewrite q15_axpy_ref_closed
    by first [ done | apply samples_int16 | rewrite ?samples_length; lia ].
  rewrite bind_Ok.
  rewrite Hk by first [ apply samples_int16 | apply samples_length ].
  rewrite bind_Ok.
  rewrite !axpy_out_full by done.
  rewrite arrays_match_closed
    by first [ done
             | apply Forall_take, axpy_elems_int16
             | rewrite ?length_take, ?length_zip_with, ?samples_length; lia ].
  rewrite bind_Ok.
  by rewrite (all_zero_max_of _ (all_zero_same _ _)), all_zero_same.
Qed.

(** X13: when the four allocations succeed, [main] exits with status 0 and
    its "Verify" line reports a match with maximum difference 0, whatever
    values the generator returns, whatever the fresh blocks and locals held,
    on every vector target and on a host without the vector extension. *)
Theorem main_always_passes (XLEN : Z) (vsetvl : Z -> Z) (rand : nat -> Z)
    (y1 y2 : Z) (a b yr yv : list Z) :
  32 <= XLEN ->
  (forall avl, 0 < avl -> 0 < vsetvl avl <= avl) ->
  length a = Z.to_nat N -> length b = Z.to_nat N ->
  length yr = Z.to_nat N -> length yv = Z.to_nat N ->
  main XLEN vsetvl rand y1 y2 (Some a) (Some b) (Some yr) (Some yv)
  = Ok (0, Some (1, 0)) /\
  main_fallback rand y1 y2 (Some a) (Some b) (Some yr) (Some yv)
  = Ok (0, Some (1, 0)).
Proof.
  intros HX Hvl Ha Hb Hyr Hyv.
  assert (HN : is_int32 N) by (unfold is_int32, N, INT32_MIN, INT32_MAX; lia).
  assert (H3 : is_int16 3) by int16_value.
  split.
  - apply (main_with_agreeing (q15_axpy_rvv XLEN vsetvl));
      [by apply battery_passes_on_target| |assumption..].
    intros a' b' Ha' Hb' Hla Hlb.
    apply q15_axpy_rvv_closed; try assumption; unfold N in *; lia.
  - apply (main_with_agreeing q15_axpy_rvv_fallback);
      [apply battery_passes_on_host| |assumption..].
    intros a' b' Ha' Hb' Hla Hlb. unfold q15_axpy_rvv_fallback.
    apply q15_axpy_ref_closed; try assumption; unfold N in *; lia.
Qed.

Lemma main_always_passes_witness :
  main 64 (vsetvl_min 8) (fun k => Z.of_nat k * 40503) 0 0
    (Some (replicate 4096 0)) (Some (replicate 4096 0))
    (Some (replicate 4096 0)) (Some (replicate 4096 1))
  = Ok (0, Some (1, 0)) /\
  main_fallback (fun k => Z.of_nat k * 40503) 0 0
    (Some (replicate 4096 0)) (Some (replicate 4096 0))
    (Some (replicate 4096 0)) (Some (replicate 4096 1))
  = Ok (0, Some (1, 0)).
Proof.
  apply (main_always_passes 64 (vsetvl_min 8));
    [ lia | apply vsetvl_min_grant; lia | apply length_replicate.. ].
Defined.

(** X14: when one of the four allocations fails, [main] exits with status 1
    after the battery and never reaches the "Verify" line. *)
Theorem main_allocation_failure (XLEN : Z) (vsetvl : Z -> Z) (rand : nat -> Z)
    (y1 y2 : Z) (alloc_a alloc_b alloc_y_ref alloc_y_rvv : option (list Z)) :
  32 <= XLEN ->
  (forall avl, 0 < avl -> 0 < vsetvl avl <= avl) ->
  alloc_a = None \/ alloc_b = None \/ alloc_y_ref = None \/ alloc_y_rvv = None ->
  main XLEN vsetvl rand y1 y2 alloc_a alloc_b alloc_y_ref alloc_y_rvv
  = Ok (1, None) /\
  main_fallback rand y1 y2 alloc_a alloc_b alloc_y_ref alloc_y_rvv
  = Ok (1, None).
Proof.
  intros HX Hvl Hnull. unfold main, main_fallback, main_with.
  rewrite battery_passes_on_target, battery_passes_on_host by done.
  rewrite !bind_Ok.
  destruct alloc_a, alloc_b, alloc_y_ref, alloc_y_rvv; try done.
  by destruct Hnull as [?|[?|[?|?]]].
Qed.

Lemma main_allocation_failure_witness :
  main 64 (vsetvl_min 8) (fun k => Z.of_nat k) 0 0
    (Some [1; 2]) (Some [3; 4]) None (Some [5; 6]) = Ok (1, None) /\
  main_fallback (fun k => Z.of_nat k) 0 0
    (Some [1; 2]) (Some [3; 4]) None (Some [5; 6]) = Ok (1, None).
Proof.
  apply (main_allocation_failure 64 (vsetvl_min 8));
    [ lia | apply vsetvl_min_grant; lia | right; right; left; reflexivity ].
Defined.

Lemma edge_case_flag (kref krvv : kernel) (a b alpha e : Z) (s s' : edge_state) :
  edge_case kref krvv a b alpha e s = Ok s' -> s'.2 = 0 \/ s'.2 = s.2.
Proof.
  destruct s as [[y1 y2] p], s' as [[y1' y2'] p']. unfold edge_case.
  destruct (kref [a] [b] [y1] 1 alpha) as [o1| |]; simpl; try done.
  destruct (krvv [a] [b] [y2] 1 alpha) as [o2| |]; simpl; try done.
  destruct (load o1 0) as [v1| |]; simpl; try done.
  destruct (load o2 0) as [v2| |]; simpl; try done.
  intros [= _ _ <-]. destruct (_ || _); auto.
Qed.

Lemma run_edge_tests_with_flag (kref krvv : kernel) (y1 y2 p : Z) :
  run_edge_tests_with kref krvv y1 y2 = Ok p -> p = 0 \/ p = 1.
Proof.
  unfold run_edge_tests_with.
  destruct (edge_case kref krvv 32767 1 1 32767 (y1, y2, 1))
    as [s1| |] eqn:E1; simpl; try done.
  destruct (edge_case kref krvv (-32768) 1 (-1) (-32768) s1)
    as [s2| |] eqn:E2; simpl; try done.
  destruct (edge_case kref krvv 0 32767 32767 32767 s2)
    as [s3| |] eqn:E3; simpl; try done.
  destruct (edge_case kref krvv 100 200 5 1100 s3)
    as [s4| |] eqn:E4; simpl; try done.
  intros [= <-].
  apply edge_case_flag in E1, E2, E3, E4. simpl in E1.
  destruct E4 as [->| ->]; [by left|].
  destruct E3 as [->| ->]; [by left|].
  destruct E2 as [->| ->]; [by left|].
  destruct E1 as [->| ->]; [by left|by right].
Qed.

(** X15: the driver is a sound test of any vector kernel: if [main] over a
    kernel [krvv] exits with status 0, then all four battery cases passed
    for the scalar kernel and for [krvv], every allocation succeeded, both
    kernels returned normally on the filled buffers and [arrays_match]
    returned a nonzero flag on their outputs; when those outputs are 16-bit
    buffers of at least [N] elements, they agree on all [N] elements and the
    reported maximum difference is 0. *)
Theorem main_exit_status_sound (krvv : kernel) (rand : nat -> Z) (y1 y2 : Z)
    (alloc_a alloc_b alloc_y_ref alloc_y_rvv : option (list Z))
    (report : option (Z * Z)) :
  main_with krvv rand y1 y2 alloc_a alloc_b alloc_y_ref alloc_y_rvv
  = Ok (0, report) ->
  battery_cases_pass q15_axpy_ref krvv y1 y2 /\
  exists (a b yr yv : list Z) (filled : list Z * list Z * nat)
         (out_ref out_rvv : list Z) (m d : Z),
    alloc_a = Some a /\ alloc_b = Some b /\
    alloc_y_ref = Some yr /\ alloc_y_rvv = Some yv /\
    fill_loop (Z.to_nat N) rand 0 a b N 0 = Ok filled /\
    q15_axpy_ref filled.1.1 filled.1.2 yr N 3 = Ok out_ref /\
    krvv filled.1.1 filled.1.2 yv N 3 = Ok out_rvv /\
    arrays_match out_ref out_rvv N = Ok (m, d) /\
    report = Some (m, d) /\ m <> 0 /\
    (Forall is_int16 out_ref -> Forall is_int16 out_rvv ->
     N <= Z.of_nat (length out_ref) -> N <= Z.of_nat (length out_rvv) ->
     take (Z.to_nat N) out_ref = take (Z.to_nat N) out_rvv /\ m = 1 /\ d = 0).
Proof.
  assert (HN : is_int32 N /\ 0 <= N)
    by (unfold is_int32, N, INT32_MIN, INT32_MAX; lia).
  unfold main_with. revert HN. generalize N. intros n [Hn32 Hn0].
  destruct (run_edge_tests_with q15_axpy_ref krvv y1 y2) as [pass| |] eqn:Hbat;
    simpl; try done.
  destruct alloc_a as [a|], alloc_b as [b|], alloc_y_ref as [yr|],
    alloc_y_rvv as [yv|]; try done.
  destruct (fill_loop (Z.to_nat n) rand 0 a b n 0) as [filled| |] eqn:Hfill;
    simpl; try done.
  destruct (q15_axpy_ref filled.1.1 filled.1.2 yr n 3) as [out_ref| |] eqn:Href;
    simpl; try done.
  destruct (krvv filled.1.1 filled.1.2 yv n 3) as [out_rvv| |] eqn:Hrvv;
    simpl; try done.
  destruct (arrays_match out_ref out_rvv n) as [[m d]| |] eqn:Hcmp;
    simpl; try done.
  intros [= Hstatus <-].
  destruct (Z.eqb_spec m 0) as [Hm|Hm]; [done|].
  destruct (Z.eqb_spec pass 0) as [Hp|Hp]; [done|].
  destruct (run_edge_tests_with_flag _ _ _ _ _ Hbat) as [? | ->]; [done|].
  split; [by apply run_edge_tests_with_passes|].
  exists a, b, yr, yv, filled, out_ref, out_rvv, m, d.
  repeat (split; [done|]).
  intros Hor Hov Hlr Hlv.
  rewrite arrays_match_closed in Hcmp by done.
  injection Hcmp as Hm' Hd'.
  destruct (all_zero (abs_diffs out_ref out_rvv (Z.to_nat n))) eqn:Hz; [|done].
  split; [by apply all_zero_prefix|].
  split; [done|]. rewrite <- Hd'. by apply all_zero_max_of.
Qed.

Lemma main_exit_status_sound_witness :
  battery_cases_pass q15_axpy_ref q15_axpy_rvv_fallback 0 0 /\
  exists (a b yr yv : list Z) (filled : list Z * list Z * nat)
         (out_ref out_rvv : list Z) (m d : Z),
    Some (replicate 4096 0) = Some a /\ Some (replicate 4096 0) = Some b /\
    Some (replicate 4096 0) = Some yr /\ Some (replicate 4096 1) = Some yv /\
    fill_loop (Z.to_nat N) (fun k => Z.of_nat k * 40503) 0 a b N 0 = Ok filled /\
    q15_axpy_ref filled.1.1 filled.1.2 yr N 3 = Ok out_ref /\
    q15_axpy_rvv_fallback filled.1.1 filled.1.2 yv N 3 = Ok out_rvv /\
    arrays_match out_ref out_rvv N = Ok (m, d) /\
    Some (1, 0) = Some (m, d) /\ m <> 0 /\
    (Forall is_int16 out_ref -> Forall is_int16 out_rvv ->
     N <= Z.of_nat (length out_ref) -> N <= Z.of_nat (length out_rvv) ->
     take (Z.to_nat N) out_ref = take (Z.to_nat N) out_rvv /\ m = 1 /\ d = 0).
Proof.
  apply (main_exit_status_sound q15_axpy_rvv_fallback (fun k => Z.of_nat k * 40503)
           0 0 (Some (replicate 4096 0)) (Some (replicate 4096 0))
           (Some (replicate 4096 0)) (Some (replicate 4096 1)) (Some (1, 0))).
  apply main_with_agreeing;
    [ apply battery_passes_on_host | | apply length_replicate.. ].
  intros a' b' Ha' Hb' Hla Hlb. unfold q15_axpy_rvv_fallback.
  apply q15_axpy_ref_closed; try assumption;
    rewrite ?length_replicate;
    unfold is_int32, is_int16, N, INT16_MIN, INT16_MAX, INT32_MIN, INT32_MAX in *;
    lia.
Defined.
